(** * COSMO_HEALTH: the chat panel and the voice mode, embedded in Rocq

    The repository is a browser front end: [ChatInterface.tsx] (text chat
    with sessions, image and voice attachments) and [VoiceMode.tsx] (record,
    transcribe, chat, speak).  This development embeds the event handlers of
    both components as functions over an explicit component state and an
    explicit log of the platform calls they make ([fetch], [toast],
    [speechSynthesis], [MediaRecorder], ...), and proves properties of the
    handlers.

    Each source file holds the current revision of a component followed by
    an earlier one; the current revision is the one embedded here.

    Modelling conventions.
    - A JavaScript string is its sequence of UTF-16 code units.
    - A value received from the network is a JSON value; a property read
      that finds nothing gives [JUndefined].
    - Every [await] of the source is resolved by a value that the handler
      receives as an argument (the microphone answer, the HTTP answers).
      The components are given a run-to-completion semantics, in which a
      handler together with the continuation of its awaits is one function
      ([VoiceMode.step], [ChatInterface.step]): it describes the executions
      in which no event arrives while a handler is suspended.
    - The voice screen is also given the semantics of its handlers cut at
      their awaits ([VoiceTasks.fire]), in which clicks, settling promises
      and remounts of the component interleave freely; [VoiceMode.step] is
      the schedule [VoiceTasks.sequential] of it.
    - A platform call is logged with the values the program passes to it.
    - A [useState] cell is a record field; the values a handler closes over
      are the fields of the state it is started in. *)

From Stdlib Require Import ZArith NArith List String Ascii Bool Lia.
From Stdlib Require Import DecimalString.
Import ListNotations.
Open Scope list_scope.

Set Implicit Arguments.
Set Warnings "-register-all".

(* ================================================================== *)
(** ** JavaScript values *)
(* ================================================================== *)

Module JS.

(** A string is a list of UTF-16 code units. *)
Definition jsstring := list N.

(** The code units of an ASCII literal of the source. *)
Fixpoint u16 (s : string) : jsstring :=
  match s with
  | EmptyString => []
  | String a r => N_of_ascii a :: u16 r
  end.

Fixpoint str_eqb (a b : jsstring) : bool :=
  match a, b with
  | [], [] => true
  | x :: a', y :: b' => N.eqb x y && str_eqb a' b'
  | _, _ => false
  end.

(** A number is observed by the program only through its truth value and
    its decimal rendering. *)
Record jsnumber := { num_falsy : bool; num_text : jsstring }.

Inductive jsval :=
| JUndefined
| JNull
| JBool (b : bool)
| JNum (n : jsnumber)
| JStr (s : jsstring)
| JArr (elems : list jsval)
| JObj (fields : list (jsstring * jsval)).

(** [new Error(message)] and the errors the engine raises. *)
Record Error := { message : jsval }.

Definition mkError (s : string) : Error := {| message := JStr (u16 s) |}.

(** ToBoolean. *)
Definition truthy (v : jsval) : bool :=
  match v with
  | JUndefined | JNull => false
  | JBool b => b
  | JNum n => negb (num_falsy n)
  | JStr s => match s with [] => false | _ => true end
  | JArr _ | JObj _ => true
  end.

(** [a || b]. *)
Definition or_else (a b : jsval) : jsval := if truthy a then a else b.

Fixpoint own (fields : list (jsstring * jsval)) (k : jsstring) : option jsval :=
  match fields with
  | [] => None
  | (k', v) :: r => if str_eqb k' k then Some v else own r k
  end.

(** [v.k] for the keys the program reads ([text], [response],
    [session_id], [detail]): none of them is inherited from a prototype, so
    only an own property of an object can supply it; reading from
    [null] or [undefined] raises a TypeError, whose message is the
    engine's (the handlers only test it for being empty). *)
Definition prop (v : jsval) (k : string) : Error + jsval :=
  match v with
  | JUndefined =>
      inl (mkError "Cannot read properties of undefined")
  | JNull =>
      inl (mkError "Cannot read properties of null")
  | JObj fields =>
      inr (match own fields (u16 k) with Some x => x | None => JUndefined end)
  | _ => inr JUndefined
  end.

Definition has_own (fields : list (jsstring * jsval)) (k : string) : bool :=
  match own fields (u16 k) with Some _ => true | None => false end.

(** ToString.  An object parsed from JSON holds no function, so an own
    [toString] property hides [Object.prototype.toString] and the
    conversion raises; an array is joined with commas, [null] and
    [undefined] elements giving the empty string. *)
Fixpoint ToString (v : jsval) : Error + jsstring :=
  match v with
  | JUndefined => inr (u16 "undefined")
  | JNull => inr (u16 "null")
  | JBool true => inr (u16 "true")
  | JBool false => inr (u16 "false")
  | JNum n => inr (num_text n)
  | JStr s => inr s
  | JObj fields =>
      if has_own fields "toString"
      then inl (mkError "Cannot convert object to primitive value")
      else inr (u16 "[object Object]")
  | JArr elems =>
      (fix join (first : bool) (l : list jsval) : Error + jsstring :=
         match l with
         | [] => inr []
         | e :: r =>
             let piece :=
               match e with
               | JUndefined | JNull => inr []
               | _ => ToString e
               end in
             match piece, join false r with
             | inl err, _ => inl err
             | _, inl err => inl err
             | inr p, inr q =>
                 inr ((if first then [] else u16 ",") ++ p ++ q)
             end
         end) true elems
  end.

(** WhiteSpace and LineTerminator code units, the ones [trim] strips. *)
Definition is_space (c : N) : bool :=
  (  (9 <=? c) && (c <=? 13)
  || (c =? 32) || (c =? 160) || (c =? 5760)
  || ((8192 <=? c) && (c <=? 8202))
  || (c =? 8232) || (c =? 8233) || (c =? 8239) || (c =? 8287)
  || (c =? 12288) || (c =? 65279))%N.

Fixpoint trimStart (s : jsstring) : jsstring :=
  match s with
  | [] => []
  | c :: r => if is_space c then trimStart r else s
  end.

Definition trimEnd (s : jsstring) : jsstring := rev (trimStart (rev s)).

(** [s.trim()]. *)
Definition trim (s : jsstring) : jsstring := trimEnd (trimStart s).

(** [n.toString()] for an integer. *)
Definition Number_toString (z : Z) : jsstring :=
  u16 (NilZero.string_of_int (Z.to_int z)).

(** A character class [[\ulo-\uhi]] tested against a string. *)
Definition test_range (lo hi : N) (text : jsstring) : bool :=
  existsb (fun c => (lo <=? c) && (c <=? hi))%N text.

Definition test_char (ch : N) (text : jsstring) : bool :=
  existsb (fun c => (c =? ch)%N) text.

End JS.

(* ================================================================== *)
(** ** The platform: forms, HTTP answers, logged calls, handlers *)
(* ================================================================== *)

Module Web.
Import JS.

(** Recorded audio, as delivered by a [dataavailable] event. *)
Definition Data := list N.

(** [new Blob(parts, { type })]. *)
Record Blob := { blob_parts : list Data; blob_type : string }.

(** [new File(parts, name)], or a file picked in an [<input>]. *)
Record File := { file_parts : list Blob; file_name : string }.

(** One [formData.append(...)]. *)
Inductive FormValue :=
| FText (v : jsval)
| FBlob (b : Blob) (filename : string)
| FFile (f : File).

Definition FormData := list (string * FormValue).

Definition has_field (name : string) (fd : FormData) : bool :=
  existsb (fun e => String.eqb (fst e) name) fd.

(** An HTTP answer: its status and what [res.json()] resolves or rejects
    with. *)
Record Response := { status : Z; json : Error + jsval }.

(** [res.ok]. *)
Definition ok (res : Response) : bool :=
  ((200 <=? status res) && (status res <=? 299))%Z.

(** What [await fetch(...)] gives: a rejection (the request never got an
    answer) or an answer. *)
Definition FetchResult := (Error + Response)%type.

(** [new SpeechSynthesisUtterance(text)] with its [lang] assigned. *)
Record Utterance := { utt_text : jsval; utt_lang : string }.

(** The calls a handler makes to the platform, in the order it makes them. *)
Inductive Call :=
| GetUserMedia
| RecorderStart
| RecorderStop
| TracksStop
| CreateObjectURL (object : Blob + File)
| Fetch (url : string) (body : FormData)
| Toast (title : string) (description : jsval) (variant : string)
| Speak (u : Utterance)
| Cancel.

Definition is_toast (c : Call) : bool :=
  match c with Toast _ _ _ => true | _ => false end.

Definition is_fetch_to (url : string) (c : Call) : bool :=
  match c with Fetch u _ => String.eqb u url | _ => false end.

Definition is_speak (c : Call) : bool :=
  match c with Speak _ => true | _ => false end.

(** A handler: it transforms the world [W] and either completes with a
    value or throws. *)
Definition M (W A : Type) : Type := W -> W * (Error + A).

Definition ret {W A} (a : A) : M W A := fun w => (w, inr a).

Definition throw {W A} (e : Error) : M W A := fun w => (w, inl e).

Definition bind {W A B} (m : M W A) (k : A -> M W B) : M W B :=
  fun w =>
    match m w with
    | (w', inr a) => k a w'
    | (w', inl e) => (w', inl e)
    end.

(** [try { m } catch (err) { h err }]. *)
Definition try_catch {W A} (m : M W A) (h : Error -> M W A) : M W A :=
  fun w =>
    match m w with
    | (w', inr a) => (w', inr a)
    | (w', inl e) => h e w'
    end.

(** [await p] for a promise that settles with [r]; also the result of an
    operation of the engine that may throw. *)
Definition await {W A} (r : Error + A) : M W A := fun w => (w, r).

Definition modify {W} (f : W -> W) : M W unit := fun w => (f w, inr tt).

Definition read {W A} (f : W -> A) : M W A := fun w => (w, inr (f w)).

Definition when {W} (c : bool) (m : M W unit) : M W unit :=
  if c then m else ret tt.

(** The world a handler leaves behind. *)
Definition exec {W A} (m : M W A) (w : W) : W := fst (m w).

End Web.

Declare Scope handler_scope.
Delimit Scope handler_scope with handler.
Notation "x <- m ;; k" := (Web.bind m (fun x => k))
  (at level 61, m at next level, right associativity) : handler_scope.
Notation "m ;; k" := (Web.bind m (fun _ => k))
  (at level 61, right associativity) : handler_scope.

(* ================================================================== *)
(** ** VoiceMode.tsx *)
(* ================================================================== *)

Module VoiceMode.
Import JS Web.
Local Open Scope handler_scope.
Local Open Scope string_scope.

(** [detectLanguage]: the first script whose range occurs in [text]. *)
Definition detectLanguage (text : jsstring) : string :=
  if test_range 0x0900 0x097F text then "hi-IN"
  else if test_range 0x0900 0x097F text && test_char 0x0931 text then "mr-IN"
  else if test_range 0x0C80 0x0CFF text then "kn-IN"
  else if test_range 0x0B80 0x0BFF text then "ta-IN"
  else if test_range 0x0B00 0x0B7F text then "or-IN"
  else if test_range 0x0980 0x09FF text then "bn-IN"
  else if test_range 0x0A00 0x0A7F text then "pa-IN"
  else if test_range 0x0A80 0x0AFF text then "gu-IN"
  else if test_range 0x0D00 0x0D7F text then "ml-IN"
  else if test_range 0x0C00 0x0C7F text then "te-IN"
  else if test_range 0x0D80 0x0DFF text then "si-LK"
  else if test_range 0x3040 0x309F text || test_range 0x30A0 0x30FF text
       then "ja-JP"
  else if test_range 0x4E00 0x9FFF text then "zh-CN"
  else if test_range 0xAC00 0xD7AF text then "ko-KR"
  else "en-IN".

(** The tags [detectLanguage] names. *)
Definition language_tags : list string :=
  [ "hi-IN"; "mr-IN"; "kn-IN"; "ta-IN"; "or-IN"; "bn-IN"; "pa-IN"; "gu-IN";
    "ml-IN"; "te-IN"; "si-LK"; "ja-JP"; "zh-CN"; "ko-KR"; "en-IN" ].

(** The script ranges of the character classes of [detectLanguage]. *)
Definition script_ranges : list (N * N) :=
  [ (0x0900, 0x097F); (0x0C80, 0x0CFF); (0x0B80, 0x0BFF); (0x0B00, 0x0B7F);
    (0x0980, 0x09FF); (0x0A00, 0x0A7F); (0x0A80, 0x0AFF); (0x0D00, 0x0D7F);
    (0x0C00, 0x0C7F); (0x0D80, 0x0DFF); (0x3040, 0x309F); (0x30A0, 0x30FF);
    (0x4E00, 0x9FFF); (0xAC00, 0xD7AF) ]%N.

Definition in_listed_script (c : N) : bool :=
  existsb (fun r => (fst r <=? c) && (c <=? snd r))%N script_ranges.

(** The [useState] cells. *)
Record State := {
  isListening : bool;
  isProcessing : bool;
  transcript : jsval;
  response : jsval;
  sessionId : jsval
}.

(** A recorder made by [startListening]: its [onstop] handler closes over
    the [sessionId] of the render that made it. *)
Record MediaRecorder := { onstop_sessionId : jsval }.

(** [speechSynthesis]: the utterance being spoken and the queued ones. *)
Record Synth := { spoken : option Utterance; queue : list Utterance }.

Definition speaking (s : Synth) : bool :=
  match spoken s with Some _ => true | None => false end.

Definition pending (s : Synth) : bool :=
  match queue s with [] => false | _ => true end.

Record World := {
  state : State;
  mediaRecorderRef : option MediaRecorder;
  audioChunksRef : list Data;
  synth : Synth;
  calls : list Call
}.

Definition initial : World := {|
  state := {| isListening := false; isProcessing := false;
              transcript := JStr []; response := JStr [];
              sessionId := JNull |};
  mediaRecorderRef := None;
  audioChunksRef := [];
  synth := {| spoken := None; queue := [] |};
  calls := []
|}.

Definition with_state (f : State -> State) (w : World) : World :=
  {| state := f (state w); mediaRecorderRef := mediaRecorderRef w;
     audioChunksRef := audioChunksRef w; synth := synth w;
     calls := calls w |}.

Definition setIsListening (b : bool) : M World unit :=
  modify (with_state (fun s =>
    {| isListening := b; isProcessing := isProcessing s;
       transcript := transcript s; response := response s;
       sessionId := sessionId s |})).

Definition setIsProcessing (b : bool) : M World unit :=
  modify (with_state (fun s =>
    {| isListening := isListening s; isProcessing := b;
       transcript := transcript s; response := response s;
       sessionId := sessionId s |})).

Definition setTranscript (v : jsval) : M World unit :=
  modify (with_state (fun s =>
    {| isListening := isListening s; isProcessing := isProcessing s;
       transcript := v; response := response s;
       sessionId := sessionId s |})).

Definition setResponse (v : jsval) : M World unit :=
  modify (with_state (fun s =>
    {| isListening := isListening s; isProcessing := isProcessing s;
       transcript := transcript s; response := v;
       sessionId := sessionId s |})).

Definition setSessionId (v : jsval) : M World unit :=
  modify (with_state (fun s =>
    {| isListening := isListening s; isProcessing := isProcessing s;
       transcript := transcript s; response := response s;
       sessionId := v |})).

Definition set_mediaRecorderRef (r : option MediaRecorder) : M World unit :=
  modify (fun w =>
    {| state := state w; mediaRecorderRef := r;
       audioChunksRef := audioChunksRef w; synth := synth w;
       calls := calls w |}).

Definition set_audioChunksRef (l : list Data) : M World unit :=
  modify (fun w =>
    {| state := state w; mediaRecorderRef := mediaRecorderRef w;
       audioChunksRef := l; synth := synth w; calls := calls w |}).

Definition set_synth (s : Synth) (w : World) : World :=
  {| state := state w; mediaRecorderRef := mediaRecorderRef w;
     audioChunksRef := audioChunksRef w; synth := s; calls := calls w |}.

(** Log a platform call. *)
Definition call (c : Call) : M World unit :=
  modify (fun w =>
    {| state := state w; mediaRecorderRef := mediaRecorderRef w;
       audioChunksRef := audioChunksRef w; synth := synth w;
       calls := (calls w ++ [c])%list |}).

Definition toast (title : string) (description : jsval) (variant : string)
  : M World unit :=
  call (Toast title description variant).

(** [speechSynthesis.speak(u)]: spoken at once when nothing is, queued
    otherwise. *)
Definition speak (u : Utterance) : M World unit :=
  call (Speak u) ;;
  modify (fun w =>
    match spoken (synth w) with
    | None => set_synth {| spoken := Some u; queue := queue (synth w) |} w
    | Some _ =>
        set_synth {| spoken := spoken (synth w);
                     queue := (queue (synth w) ++ [u])%list |} w
    end).

(** [speechSynthesis.cancel()]. *)
Definition cancel : M World unit :=
  call Cancel ;;
  modify (set_synth {| spoken := None; queue := [] |}).

(** The synthesiser finishes the utterance it speaks and takes the next. *)
Definition speech_end (w : World) : World :=
  match queue (synth w) with
  | [] => set_synth {| spoken := None; queue := [] |} w
  | u :: r => set_synth {| spoken := Some u; queue := r |} w
  end.

Definition transcribe_url := "http://localhost:5000/api/transcribe".
Definition chat_url := "http://localhost:5000/api/chat".

(** [handleChat], in a render whose [sessionId] cell holds [sessionId]. *)
Definition handleChat (sessionId : jsval) (message : jsval)
    (chatRes : FetchResult) : M World unit :=
  try_catch
    (let formData :=
       ((if truthy sessionId then [("session_id", FText sessionId)] else [])
        ++ [("message", FText message)])%list in
     call (Fetch chat_url formData) ;;
     res <- await chatRes ;;
     if negb (ok res) then throw (mkError "Chat request failed") else
     data <- await (json res) ;;
     r <- await (prop data "response") ;;
     setResponse r ;;
     sid <- await (prop data "session_id") ;;
     setSessionId sid ;;
     text <- await (ToString r) ;;
     speak {| utt_text := r; utt_lang := detectLanguage text |} ;;
     setIsProcessing false)
    (fun err =>
       toast "Error" (or_else (JS.message err) (JStr (u16 "Chat error")))
             "destructive" ;;
       setIsProcessing false).

(** [handleTranscription]. *)
Definition handleTranscription (sessionId : jsval) (audioBlob : Blob)
    (trRes chatRes : FetchResult) : M World unit :=
  try_catch
    (let formData := [("file", FBlob audioBlob "recording.webm")] in
     call (Fetch transcribe_url formData) ;;
     res <- await trRes ;;
     if negb (ok res) then throw (mkError "Transcription failed") else
     data <- await (json res) ;;
     text <- await (prop data "text") ;;
     setTranscript text ;;
     handleChat sessionId text chatRes)
    (fun err =>
       toast "Error"
             (or_else (JS.message err) (JStr (u16 "Transcription error")))
             "destructive" ;;
       setIsProcessing false).

(** [mediaRecorder.ondataavailable]. *)
Definition ondataavailable (data : Data) : M World unit :=
  chunks <- read audioChunksRef ;;
  set_audioChunksRef (chunks ++ [data])%list.

(** [mediaRecorder.onstop] of the recorder [rec]. *)
Definition onstop (rec : MediaRecorder) (trRes chatRes : FetchResult)
  : M World unit :=
  setIsProcessing true ;;
  chunks <- read audioChunksRef ;;
  let audioBlob := {| blob_parts := chunks; blob_type := "audio/webm" |} in
  handleTranscription (onstop_sessionId rec) audioBlob trRes chatRes ;;
  call TracksStop.

(** [startListening]; [mic] is what [getUserMedia] settles with.  The
    recorder it makes closes over the [sessionId] of the render the click
    came from. *)
Definition startListening (mic : Error + unit) : M World unit :=
  sessionId <- read (fun w => sessionId (state w)) ;;
  try_catch
    (s <- read synth ;;
     when (speaking s || pending s) cancel ;;
     call GetUserMedia ;;
     await mic ;;
     set_mediaRecorderRef (Some {| onstop_sessionId := sessionId |}) ;;
     set_audioChunksRef [] ;;
     call RecorderStart ;;
     setIsListening true ;;
     setTranscript (JStr []) ;;
     setResponse (JStr []))
    (fun _ =>
       toast "Error" (JStr (u16 "Could not access microphone"))
             "destructive").

(** [stopListening].  The recorder answers [stop()] with one
    [dataavailable] event carrying [data] and then the [stop] event, both
    after the handler has returned. *)
Definition stopListening (data : Data) (trRes chatRes : FetchResult)
  : M World unit :=
  ref <- read mediaRecorderRef ;;
  listening <- read (fun w => isListening (state w)) ;;
  let stopped := match ref with Some rec => listening | None => false end in
  when stopped (call RecorderStop ;; setIsListening false) ;;
  s <- read synth ;;
  when (speaking s || pending s) cancel ;;
  match ref with
  | Some rec =>
      when stopped (ondataavailable data ;; onstop rec trRes chatRes)
  | None => ret tt
  end.

(** What the environment answers during one click of the button. *)
Record Answers := {
  mic : Error + unit;
  recorded : Data;
  transcribed : FetchResult;
  chatted : FetchResult
}.

(** [toggleListening]. *)
Definition toggleListening (a : Answers) : M World unit :=
  listening <- read (fun w => isListening (state w)) ;;
  if listening
  then stopListening (recorded a) (transcribed a) (chatted a)
  else startListening (mic a).

(** What happens to the screen when handlers run to completion: the
    button is clicked (it is disabled while [isProcessing]) and every
    promise the click awaits settles, with the answers [a], before the next
    event; or the synthesiser finishes an utterance. *)
Inductive Input :=
| Click (a : Answers)
| SpeechEnd.

(** One event of the run-to-completion semantics of one mounted component.
    Clicks that arrive while [getUserMedia] or a request is pending, and
    remounts of the component, are events of [VoiceTasks.fire]. *)
Definition step (w : World) (i : Input) : World :=
  match i with
  | Click a =>
      if isProcessing (state w) then w else exec (toggleListening a) w
  | SpeechEnd => speech_end w
  end.

Definition run (inputs : list Input) (w : World) : World :=
  fold_left step inputs w.

End VoiceMode.

(* ================================================================== *)
(** ** VoiceMode.tsx: handlers cut at their awaits *)
(* ================================================================== *)

(** A handler that reaches an [await] leaves a task behind, which a later
    event resumes; other events may come in between.  The button of the
    voice screen is disabled only while [isProcessing], which [onstop]
    sets, so it can be clicked while [getUserMedia] is pending; and the
    page ([Index]) renders [<VoiceMode />] only in voice mode, so the mode
    toggle unmounts the component, with its tasks still pending, and
    mounts a fresh one. *)
Module VoiceTasks.
Import JS Web VoiceMode.
Local Open Scope handler_scope.
Local Open Scope string_scope.

(** [startListening] up to [await getUserMedia]; it gives the [sessionId]
    of the render the click came from, which the closures it makes hold. *)
Definition startListening_begin : M World jsval :=
  sessionId <- read (fun w => sessionId (state w)) ;;
  s <- read synth ;;
  when (speaking s || pending s) cancel ;;
  call GetUserMedia ;;
  ret sessionId.

(** [startListening] from the moment [getUserMedia] settles with [mic]. *)
Definition startListening_resume (sessionId : jsval) (mic : Error + unit)
  : M World unit :=
  try_catch
    (await mic ;;
     set_mediaRecorderRef (Some {| onstop_sessionId := sessionId |}) ;;
     set_audioChunksRef [] ;;
     call RecorderStart ;;
     setIsListening true ;;
     setTranscript (JStr []) ;;
     setResponse (JStr []))
    (fun _ =>
       toast "Error" (JStr (u16 "Could not access microphone"))
             "destructive").

(** [stopListening], which awaits nothing; it gives the recorder whose
    [stop()] it has called, if any. *)
Definition stopListening_now : M World (option MediaRecorder) :=
  ref <- read mediaRecorderRef ;;
  listening <- read (fun w => isListening (state w)) ;;
  let stopped := match ref with Some rec => listening | None => false end in
  when stopped (call RecorderStop ;; setIsListening false) ;;
  s <- read synth ;;
  when (speaking s || pending s) cancel ;;
  ret (if stopped then ref else None).

(** [handleTranscription] up to [await fetch]. *)
Definition handleTranscription_begin (audioBlob : Blob) : M World unit :=
  let formData := [("file", FBlob audioBlob "recording.webm")] in
  call (Fetch transcribe_url formData).

(** [onstop] up to the [await fetch] of [handleTranscription]. *)
Definition onstop_begin : M World unit :=
  setIsProcessing true ;;
  chunks <- read audioChunksRef ;;
  let audioBlob := {| blob_parts := chunks; blob_type := "audio/webm" |} in
  handleTranscription_begin audioBlob.

(** [handleChat] up to [await fetch]. *)
Definition handleChat_begin (sessionId message : jsval) : M World unit :=
  let formData :=
    ((if truthy sessionId then [("session_id", FText sessionId)] else [])
     ++ [("message", FText message)])%list in
  call (Fetch chat_url formData).

(** [handleChat] from the moment its request settles with [chatRes].  An
    answer comes with its body: the handler does nothing between
    [await fetch] and [await res.json()]. *)
Definition handleChat_resume (chatRes : FetchResult) : M World unit :=
  try_catch
    (res <- await chatRes ;;
     if negb (ok res) then throw (mkError "Chat request failed") else
     data <- await (json res) ;;
     r <- await (prop data "response") ;;
     setResponse r ;;
     sid <- await (prop data "session_id") ;;
     setSessionId sid ;;
     text <- await (ToString r) ;;
     speak {| utt_text := r; utt_lang := detectLanguage text |} ;;
     setIsProcessing false)
    (fun err =>
       toast "Error" (or_else (JS.message err) (JStr (u16 "Chat error")))
             "destructive" ;;
       setIsProcessing false).

(** [handleTranscription] from the moment its request settles with
    [trRes]; it gives [true] when it is left waiting for the request of
    [handleChat], and [false] when it has returned. *)
Definition handleTranscription_resume (sessionId : jsval)
    (trRes : FetchResult) : M World bool :=
  try_catch
    (res <- await trRes ;;
     if negb (ok res) then throw (mkError "Transcription failed") else
     data <- await (json res) ;;
     text <- await (prop data "text") ;;
     setTranscript text ;;
     handleChat_begin sessionId text ;;
     ret true)
    (fun err =>
       toast "Error"
             (or_else (JS.message err) (JStr (u16 "Transcription error")))
             "destructive" ;;
       setIsProcessing false ;;
       ret false).

(** What is left of [onstop] once [handleTranscription] has returned. *)
Definition onstop_end : M World unit := call TracksStop.

(** A suspended handler: [startListening] at [getUserMedia]; a recorder
    whose [stop()] was called and whose [dataavailable] and [stop] events
    are due (the recorder fires both in one task); [onstop] at the request
    of [handleTranscription], and at the request of [handleChat]. *)
Inductive Task :=
| AwaitingMic (sessionId : jsval)
| Stopped (rec : MediaRecorder)
| AwaitingTranscription (sessionId : jsval)
| AwaitingChat.

(** The page in voice mode.  [screen] holds the cells and the refs of the
    mounted component together with the synthesiser and the log, which
    belong to the window; [unmounted] holds the cells and refs of the
    components unmounted so far, oldest first (their [synth] and [calls]
    fields are not used); a task is paired with the number of the component
    it belongs to, the mounted one having number [length unmounted]. *)
Record Page := {
  screen : World;
  unmounted : list World;
  tasks : list (nat * Task)
}.

(** The cells and refs of [w] with the synthesiser and the log of [src]. *)
Definition platform_of (src w : World) : World :=
  {| state := state w; mediaRecorderRef := mediaRecorderRef w;
     audioChunksRef := audioChunksRef w; synth := synth src;
     calls := calls src |}.

Fixpoint replace (g : nat) (x : World) (l : list World) : list World :=
  match l, g with
  | [], _ => []
  | _ :: r, O => x :: r
  | y :: r, S g' => y :: replace g' x r
  end.

(** Run [m] in the component number [g].  The cells of an unmounted
    component are never rendered again, and no suspended handler reads
    them; its refs are still shared by its closures. *)
Definition on_instance {A} (g : nat) (m : M World A) (p : Page)
  : Page * (Error + A) :=
  match nth_error (unmounted p) g with
  | Some old =>
      let (w', r) := m (platform_of (screen p) old) in
      ({| screen := platform_of w' (screen p);
          unmounted := replace g w' (unmounted p);
          tasks := tasks p |}, r)
  | None =>
      let (w', r) := m (screen p) in
      ({| screen := w'; unmounted := unmounted p; tasks := tasks p |}, r)
  end.

(** Run [m] in the mounted component. *)
Definition on_screen {A} (m : M World A) (p : Page) : Page * (Error + A) :=
  let (w', r) := m (screen p) in
  ({| screen := w'; unmounted := unmounted p; tasks := tasks p |}, r).

Definition push (t : nat * Task) (p : Page) : Page :=
  {| screen := screen p; unmounted := unmounted p;
     tasks := (tasks p ++ [t])%list |}.

(** The task number [k] and the tasks that remain. *)
Fixpoint take (k : nat) (l : list (nat * Task))
  : option ((nat * Task) * list (nat * Task)) :=
  match l, k with
  | [], _ => None
  | t :: r, O => Some (t, r)
  | t :: r, S k' =>
      match take k' r with
      | Some (x, r') => Some (x, t :: r')
      | None => None
      end
  end.

Definition resume (k : nat) (p : Page) : option ((nat * Task) * Page) :=
  match take k (tasks p) with
  | Some (t, rest) =>
      Some (t, {| screen := screen p; unmounted := unmounted p;
                  tasks := rest |})
  | None => None
  end.

(** What happens to the page: the button is pressed; the promise of the
    task number [k] settles, or the stopped recorder number [k] fires its
    events; the synthesiser finishes an utterance; the mode is toggled to
    chat and back. *)
Inductive Event :=
| Press
| MicSettles (k : nat) (mic : Error + unit)
| RecorderFires (k : nat) (data : Data)
| TranscriptionSettles (k : nat) (trRes : FetchResult)
| ChatSettles (k : nat) (chatRes : FetchResult)
| SpeechEnds
| Remount.

(** One event.  An event that names no task of its kind changes nothing.
    A press of the button reads the cells of the mounted component as they
    are at that moment.  While [isListening] holds the recorder in the ref
    is recording: [isListening] is set only together with a fresh recorder
    in the ref, and reset together with the call of its [stop()]. *)
Definition fire (p : Page) (e : Event) : Page :=
  match e with
  | Press =>
      if isProcessing (state (screen p)) then p else
      if isListening (state (screen p)) then
        match on_screen stopListening_now p with
        | (p', inr (Some rec)) =>
            push (List.length (unmounted p), Stopped rec) p'
        | (p', _) => p'
        end
      else
        match on_screen startListening_begin p with
        | (p', inr sessionId) =>
            push (List.length (unmounted p), AwaitingMic sessionId) p'
        | (p', inl _) => p'
        end
  | MicSettles k mic =>
      match resume k p with
      | Some ((g, AwaitingMic sessionId), p') =>
          fst (on_instance g (startListening_resume sessionId mic) p')
      | _ => p
      end
  | RecorderFires k data =>
      match resume k p with
      | Some ((g, Stopped rec), p') =>
          push (g, AwaitingTranscription (onstop_sessionId rec))
               (fst (on_instance g (ondataavailable data ;; onstop_begin) p'))
      | _ => p
      end
  | TranscriptionSettles k trRes =>
      match resume k p with
      | Some ((g, AwaitingTranscription sessionId), p') =>
          match on_instance g (handleTranscription_resume sessionId trRes) p'
          with
          | (p'', inr true) => push (g, AwaitingChat) p''
          | (p'', _) => fst (on_instance g onstop_end p'')
          end
      | _ => p
      end
  | ChatSettles k chatRes =>
      match resume k p with
      | Some ((g, AwaitingChat), p') =>
          fst (on_instance g (handleChat_resume chatRes ;; onstop_end) p')
      | _ => p
      end
  | SpeechEnds =>
      {| screen := speech_end (screen p); unmounted := unmounted p;
         tasks := tasks p |}
  | Remount =>
      {| screen := platform_of (screen p) initial;
         unmounted := (unmounted p ++ [screen p])%list;
         tasks := tasks p |}
  end.

Definition play (events : list Event) (p : Page) : Page :=
  fold_left fire events p.

(** A page on which no handler is suspended. *)
Definition settled (w : World) (u : list World) : Page :=
  {| screen := w; unmounted := u; tasks := [] |}.

(** An event of [VoiceMode.step] as events of the page: what the click
    awaits settles before anything else happens. *)
Definition sequential (i : Input) : list Event :=
  match i with
  | Click a =>
      [ Press; MicSettles 0 (mic a); RecorderFires 0 (recorded a);
        TranscriptionSettles 0 (transcribed a); ChatSettles 0 (chatted a) ]
  | SpeechEnd => [ SpeechEnds ]
  end.

End VoiceTasks.

(* ================================================================== *)
(** ** ChatInterface.tsx *)
(* ================================================================== *)

Module ChatInterface.
Import JS Web.
Local Open Scope handler_scope.
Local Open Scope string_scope.

Inductive MessageType := text | image | voice.
Inductive Sender := user | bot.

Module Message.
Record t := {
  id : jsstring;
  content : jsval;
  type : MessageType;
  sender : Sender;
  timestamp : Z;
  fileUrl : option jsstring
}.
End Message.

Module Session.
Record t := {
  id : jsstring;
  name : jsstring;
  messages : list Message.t;
  createdAt : Z
}.
End Session.

(** A recorder made by [startVoiceRecording]: its handlers close over the
    [activeSession] of the render that made it and over the local
    [chunks] array. *)
Record MediaRecorder := {
  onstop_activeSession : jsstring;
  chunks : list Data
}.

(** The [useState] cells and refs of the component, the log of its
    platform calls, and the clock and object-URL answers of the platform
    ([now k] is the k-th reading of the clock). *)
Record World := {
  sessions : list Session.t;
  activeSession : jsstring;
  inputMessage : jsstring;
  isRecording : bool;
  mediaRecorderRef : option MediaRecorder;
  calls : list Call;
  now : nat -> Z;
  clock_reads : nat;
  object_url : nat -> jsstring;
  urls_made : nat
}.

Definition initial (now : nat -> Z) (object_url : nat -> jsstring) (t0 : Z)
  : World := {|
  sessions := [ {| Session.id := u16 "1"; Session.name := u16 "New Chat";
                   Session.messages := []; Session.createdAt := t0 |} ];
  activeSession := u16 "1";
  inputMessage := [];
  isRecording := false;
  mediaRecorderRef := None;
  calls := [];
  now := now;
  clock_reads := 0;
  object_url := object_url;
  urls_made := 0
|}.

Definition setSessions (f : list Session.t -> list Session.t)
  : M World unit :=
  modify (fun w =>
    {| sessions := f (sessions w); activeSession := activeSession w;
       inputMessage := inputMessage w; isRecording := isRecording w;
       mediaRecorderRef := mediaRecorderRef w; calls := calls w;
       now := now w; clock_reads := clock_reads w;
       object_url := object_url w; urls_made := urls_made w |}).

Definition setActiveSession (i : jsstring) : M World unit :=
  modify (fun w =>
    {| sessions := sessions w; activeSession := i;
       inputMessage := inputMessage w; isRecording := isRecording w;
       mediaRecorderRef := mediaRecorderRef w; calls := calls w;
       now := now w; clock_reads := clock_reads w;
       object_url := object_url w; urls_made := urls_made w |}).

Definition setInputMessage (s : jsstring) : M World unit :=
  modify (fun w =>
    {| sessions := sessions w; activeSession := activeSession w;
       inputMessage := s; isRecording := isRecording w;
       mediaRecorderRef := mediaRecorderRef w; calls := calls w;
       now := now w; clock_reads := clock_reads w;
       object_url := object_url w; urls_made := urls_made w |}).

Definition setIsRecording (b : bool) : M World unit :=
  modify (fun w =>
    {| sessions := sessions w; activeSession := activeSession w;
       inputMessage := inputMessage w; isRecording := b;
       mediaRecorderRef := mediaRecorderRef w; calls := calls w;
       now := now w; clock_reads := clock_reads w;
       object_url := object_url w; urls_made := urls_made w |}).

Definition set_mediaRecorderRef (r : option MediaRecorder) : M World unit :=
  modify (fun w =>
    {| sessions := sessions w; activeSession := activeSession w;
       inputMessage := inputMessage w; isRecording := isRecording w;
       mediaRecorderRef := r; calls := calls w;
       now := now w; clock_reads := clock_reads w;
       object_url := object_url w; urls_made := urls_made w |}).

Definition call (c : Call) : M World unit :=
  modify (fun w =>
    {| sessions := sessions w; activeSession := activeSession w;
       inputMessage := inputMessage w; isRecording := isRecording w;
       mediaRecorderRef := mediaRecorderRef w;
       calls := (calls w ++ [c])%list;
       now := now w; clock_reads := clock_reads w;
       object_url := object_url w; urls_made := urls_made w |}).

Definition toast (title : string) (description : jsval) (variant : string)
  : M World unit :=
  call (Toast title description variant).

(** [Date.now()], and the reading behind [new Date()]. *)
Definition Date_now : M World Z :=
  fun w =>
    ({| sessions := sessions w; activeSession := activeSession w;
        inputMessage := inputMessage w; isRecording := isRecording w;
        mediaRecorderRef := mediaRecorderRef w; calls := calls w;
        now := now w; clock_reads := S (clock_reads w);
        object_url := object_url w; urls_made := urls_made w |},
     inr (now w (clock_reads w))).

(** [URL.createObjectURL(blob)]. *)
Definition createObjectURL (object : Blob + File) : M World jsstring :=
  call (CreateObjectURL object) ;;
  fun w =>
    ({| sessions := sessions w; activeSession := activeSession w;
        inputMessage := inputMessage w; isRecording := isRecording w;
        mediaRecorderRef := mediaRecorderRef w; calls := calls w;
        now := now w; clock_reads := clock_reads w;
        object_url := object_url w; urls_made := S (urls_made w) |},
     inr (object_url w (urls_made w))).

(** The updater [addMessage] hands to [setSessions]. *)
Definition append_message (activeSession : jsstring)
    (newMessage : Message.t) (prev : list Session.t) : list Session.t :=
  map (fun session =>
         if str_eqb (Session.id session) activeSession
         then {| Session.id := Session.id session;
                 Session.name := Session.name session;
                 Session.messages :=
                   (Session.messages session ++ [newMessage])%list;
                 Session.createdAt := Session.createdAt session |}
         else session)
      prev.

(** [addMessage], in a render whose [activeSession] cell holds
    [activeSession]. *)
Definition addMessage (activeSession : jsstring) (content : jsval)
    (type : MessageType) (sender : Sender) (fileUrl : option jsstring)
  : M World unit :=
  i <- Date_now ;;
  t <- Date_now ;;
  let newMessage :=
    {| Message.id := Number_toString i; Message.content := content;
       Message.type := type; Message.sender := sender;
       Message.timestamp := t; Message.fileUrl := fileUrl |} in
  setSessions (append_message activeSession newMessage).

Definition transcribe_url :=
  "https://healthcare-m3c6.onrender.com/api/transcribe".
Definition chat_url := "https://healthcare-m3c6.onrender.com/api/chat".

(** [handleSendMessage]. *)
Definition handleSendMessage (chatRes : FetchResult) : M World unit :=
  inputMessage <- read inputMessage ;;
  activeSession <- read activeSession ;;
  if negb (truthy (JStr (trim inputMessage))) then ret tt else
  let sessionId := activeSession in
  let userText := trim inputMessage in
  addMessage activeSession (JStr userText) text user None ;;
  setInputMessage [] ;;
  try_catch
    (let formData := [ ("session_id", FText (JStr sessionId));
                       ("message", FText (JStr userText)) ] in
     call (Fetch chat_url formData) ;;
     res <- await chatRes ;;
     data <- await (json res) ;;
     if ok res
     then r <- await (prop data "response") ;;
          addMessage activeSession r text bot None
     else d <- await (prop data "detail") ;;
          toast "Error" (or_else d (JStr (u16 "Chat failed"))) "destructive")
    (fun _ =>
       toast "Error" (JStr (u16 "Failed to connect to chatbot"))
             "destructive").

(** [handleFileUpload]; [picked] is [event.target.files?.[0]]. *)
Definition handleFileUpload (picked : option File) (chatRes : FetchResult)
  : M World unit :=
  match picked with
  | None => ret tt
  | Some file =>
      activeSession <- read activeSession ;;
      let sessionId := activeSession in
      url <- createObjectURL (inr file) ;;
      addMessage activeSession (JStr (u16 "Image uploaded")) image user
                 (Some url) ;;
      try_catch
        (let formData := [ ("session_id", FText (JStr sessionId));
                           ("file", FFile file) ] in
         call (Fetch chat_url formData) ;;
         res <- await chatRes ;;
         data <- await (json res) ;;
         if ok res
         then r <- await (prop data "response") ;;
              addMessage activeSession r text bot None
         else d <- await (prop data "detail") ;;
              toast "Error"
                    (or_else d (JStr (u16 "Image processing failed")))
                    "destructive")
        (fun _ =>
           toast "Error" (JStr (u16 "Could not send image")) "destructive")
  end.

(** [mediaRecorder.ondataavailable]: push onto the recorder's [chunks]. *)
Definition ondataavailable (rec : MediaRecorder) (data : Data)
  : MediaRecorder :=
  {| onstop_activeSession := onstop_activeSession rec;
     chunks := (chunks rec ++ [data])%list |}.

(** [mediaRecorder.onstop] of the recorder [rec]. *)
Definition onstop (rec : MediaRecorder) (trRes chatRes : FetchResult)
  : M World unit :=
  let activeSession := onstop_activeSession rec in
  let blob := {| blob_parts := chunks rec; blob_type := "audio/webm" |} in
  url <- createObjectURL (inl blob) ;;
  addMessage activeSession (JStr (u16 "Voice message")) voice user
             (Some url) ;;
  let formData :=
    [ ("file", FFile {| file_parts := [blob]; file_name := "voice.webm" |}) ]
  in
  try_catch
    (call (Fetch transcribe_url formData) ;;
     res <- await trRes ;;
     data <- await (json res) ;;
     transcribed <-
       (if ok res
        then t <- await (prop data "text") ;; ret (truthy t)
        else ret false) ;;
     if (transcribed : bool)
     then t <- await (prop data "text") ;;
          addMessage activeSession t text user None ;;
          let chatData := [ ("session_id", FText (JStr activeSession));
                            ("message", FText t) ] in
          call (Fetch chat_url chatData) ;;
          chatRes' <- await chatRes ;;
          chatResp <- await (json chatRes') ;;
          if ok chatRes'
          then r <- await (prop chatResp "response") ;;
               addMessage activeSession r text bot None
          else ret tt
     else toast "Error" (JStr (u16 "Transcription failed")) "destructive")
    (fun _ =>
       toast "Error" (JStr (u16 "Voice upload failed")) "destructive") ;;
  call TracksStop.

(** [startVoiceRecording]; [mic] is what [getUserMedia] settles with.  The
    recorder it makes closes over the [activeSession] of the render the
    click came from. *)
Definition startVoiceRecording (mic : Error + unit) : M World unit :=
  activeSession <- read activeSession ;;
  try_catch
    (call GetUserMedia ;;
     await mic ;;
     set_mediaRecorderRef
       (Some {| onstop_activeSession := activeSession; chunks := [] |}) ;;
     call RecorderStart ;;
     setIsRecording true)
    (fun _ =>
       toast "Error" (JStr (u16 "Could not access microphone"))
             "destructive").

(** [stopVoiceRecording].  The recorder answers [stop()] with one
    [dataavailable] event carrying [data] and then the [stop] event, both
    after the handler has returned. *)
Definition stopVoiceRecording (data : Data) (trRes chatRes : FetchResult)
  : M World unit :=
  ref <- read mediaRecorderRef ;;
  recording <- read isRecording ;;
  match ref with
  | Some rec =>
      when recording
        (call RecorderStop ;;
         setIsRecording false ;;
         onstop (ondataavailable rec data) trRes chatRes)
  | None => ret tt
  end.

(** [createNewSession]. *)
Definition createNewSession : M World unit :=
  count <- read (fun w => List.length (sessions w)) ;;
  i <- Date_now ;;
  t <- Date_now ;;
  let newSession :=
    {| Session.id := Number_toString i;
       Session.name :=
         (u16 "Chat " ++ Number_toString (Z.of_nat count + 1))%list;
       Session.messages := [];
       Session.createdAt := t |} in
  setSessions (fun prev => (prev ++ [newSession])%list) ;;
  setActiveSession (Session.id newSession).

(** A click on the card of the [k]-th session of the sidebar. *)
Definition selectSession (k : nat) : M World unit :=
  ss <- read sessions ;;
  match nth_error ss k with
  | Some session => setActiveSession (Session.id session)
  | None => ret tt
  end.

(** The microphone button: [isRecording ? stopVoiceRecording :
    startVoiceRecording]. *)
Definition micButton (mic : Error + unit) (data : Data)
    (trRes chatRes : FetchResult) : M World unit :=
  recording <- read isRecording ;;
  if recording
  then stopVoiceRecording data trRes chatRes
  else startVoiceRecording mic.

(** What the user does to the panel, with what the environment answers. *)
Inductive Input :=
| TypeText (value : jsstring)
| Send (chatRes : FetchResult)
| Upload (picked : option File) (chatRes : FetchResult)
| MicButton (mic : Error + unit) (data : Data)
            (trRes chatRes : FetchResult)
| NewChat
| Select (k : nat).

Definition handler (i : Input) : M World unit :=
  match i with
  | TypeText value => setInputMessage value
  | Send chatRes => handleSendMessage chatRes
  | Upload picked chatRes => handleFileUpload picked chatRes
  | MicButton mic data trRes chatRes => micButton mic data trRes chatRes
  | NewChat => createNewSession
  | Select k => selectSession k
  end.

Definition step (w : World) (i : Input) : World := exec (handler i) w.

Definition run (inputs : list Input) (w : World) : World :=
  fold_left step inputs w.

(** The two ways the component changes [sessions]. *)
Inductive Op :=
| Add (activeSession : jsstring) (newMessage : Message.t)
| Create (newSession : Session.t).

Definition apply_op (ss : list Session.t) (o : Op) : list Session.t :=
  match o with
  | Add activeSession newMessage => append_message activeSession newMessage ss
  | Create newSession => (ss ++ [newSession])%list
  end.

Definition apply_ops (ops : list Op) (ss : list Session.t)
  : list Session.t :=
  fold_left apply_op ops ss.

(** The messages that [ops] add for the session id [i], in the order of
    [ops]. *)
Fixpoint added_to (i : jsstring) (ops : list Op) : list Message.t :=
  match ops with
  | [] => []
  | Add activeSession newMessage :: r =>
      if str_eqb i activeSession
      then newMessage :: added_to i r
      else added_to i r
  | Create _ :: r => added_to i r
  end.

(** [currentSession]: the first session whose id is the active one. *)
Definition currentSession (w : World) : option Session.t :=
  find (fun s => str_eqb (Session.id s) (activeSession w)) (sessions w).

(** The [disabled] attribute of the Send button. *)
Definition sendDisabled (w : World) : bool :=
  negb (truthy (JStr (trim (inputMessage w)))).

End ChatInterface.

(* ================================================================== *)
(** ** Vocabulary of the statements *)
(* ================================================================== *)

Module Observe.
Import JS Web.
Local Open Scope string_scope.
Local Open Scope list_scope.

(** The calls logged in [after] since the log was [before]. *)
Definition issued (before after : list Call) : list Call :=
  skipn (List.length before) after.


Definition count_fetch (url : string) (cs : list Call) : nat :=
  List.length (filter (is_fetch_to url) cs).

(** The bodies of the requests sent to [url], in order. *)
Definition bodies_to (url : string) (cs : list Call) : list FormData :=
  flat_map (fun c =>
              match c with
              | Fetch u body => if String.eqb u url then [body] else []
              | _ => []
              end) cs.

(** The values appended to a form under [name], in order. *)
Definition field_values (name : string) (fd : FormData) : list FormValue :=
  map snd (filter (fun e => String.eqb (fst e) name) fd).

Definition nullish (v : jsval) : bool :=
  match v with JUndefined | JNull => true | _ => false end.

(** The JSON reply of a successful request: the status is 2xx, the body
    parses, and its fields can be read. *)
Definition reply (r : FetchResult) : option jsval :=
  match r with
  | inl _ => None
  | inr res =>
      if ok res
      then match json res with
           | inr data => if nullish data then None else Some data
           | inl _ => None
           end
      else None
  end.

(** The field [k] of a reply. *)
Definition field (data : jsval) (k : string) : jsval :=
  match prop data k with inr v => v | inl _ => JUndefined end.


(** The synthesiser neither speaks nor has anything queued. *)
Definition idle (s : VoiceMode.Synth) : Prop :=
  VoiceMode.spoken s = None /\ VoiceMode.queue s = [].

(** While the voice screen listens, the synthesiser is idle and the
    recorder in the ref closes over the current session id. *)
Definition listening_inv (w : VoiceMode.World) : Prop :=
  VoiceMode.isListening (VoiceMode.state w) = true ->
  idle (VoiceMode.synth w)
  /\ exists rec,
       VoiceMode.mediaRecorderRef w = Some rec
       /\ VoiceMode.onstop_sessionId rec
          = VoiceMode.sessionId (VoiceMode.state w).




(** The [session_id] fields of a form that carries [sid] when it is
    non-empty, and no such field otherwise. *)
Definition session_id_fields (sid : jsval) : list FormValue :=
  if truthy sid then [FText sid] else [].

(** A handler of the chat panel that changes [sessions] only by adding
    messages and by appending sessions. *)
Definition acts_by_ops {A} (m : M ChatInterface.World A) : Prop :=
  forall w, exists ops,
    ChatInterface.sessions (fst (m w))
    = ChatInterface.apply_ops ops (ChatInterface.sessions w).

(** The file the chat panel uploads for the recorder [rec]. *)
Definition voice_file (rec : ChatInterface.MediaRecorder) : File :=
  {| file_parts :=
       [ {| blob_parts := ChatInterface.chunks rec;
            blob_type := "audio/webm" |} ];
     file_name := "voice.webm" |}.

End Observe.

(* ================================================================== *)
(** ** Concrete scenarios *)
(* ================================================================== *)

Module Scenario.
Import JS Web.
Local Open Scope string_scope.
Local Open Scope list_scope.

Definition obj (fields : list (string * jsval)) : jsval :=
  JObj (map (fun p => (u16 (fst p), snd p)) fields).

Definition str (s : string) : jsval := JStr (u16 s).

Definition answer (status : Z) (data : jsval) : FetchResult :=
  inr {| Web.status := status; json := inr data |}.

Definition offline : FetchResult := inl (mkError "Failed to fetch").

(** Three voice interactions: the first chat reply carries a session id,
    the second carries none. *)
Definition heard_body : jsval := obj [("text", str "hi")].

Definition heard : FetchResult := answer 200 heard_body.

Definition recording : Blob :=
  {| blob_parts := [[1%N; 2%N]]; blob_type := "audio/webm" |}.

Definition reply_with_id : FetchResult :=
  answer 200 (obj [("response", str "a"); ("session_id", str "s1")]).

Definition reply_without_id : FetchResult :=
  answer 200 (obj [("response", str "b")]).

Definition talk (chat : FetchResult) : VoiceMode.Answers :=
  {| VoiceMode.mic := inr tt; VoiceMode.recorded := [1%N; 2%N];
     VoiceMode.transcribed := heard; VoiceMode.chatted := chat |}.

Definition three_talks : list VoiceMode.Input :=
  [ VoiceMode.Click (talk reply_with_id);
    VoiceMode.Click (talk reply_with_id);
    VoiceMode.Click (talk reply_without_id);
    VoiceMode.Click (talk reply_without_id);
    VoiceMode.Click (talk reply_with_id);
    VoiceMode.Click (talk reply_with_id) ].

Definition form_with_id : FormData :=
  [ ("session_id", FText (str "s1")); ("message", FText (str "hi")) ].

(** A clock whose first four readings fall in the same millisecond. *)
Definition clock (k : nat) : Z :=
  if Nat.ltb k 4 then 1700000000000%Z
  else (1700000005000 + Z.of_nat k)%Z.

Definition panel : ChatInterface.World :=
  ChatInterface.initial clock (fun _ => u16 "blob:voice")
                        1699999999000%Z.

(** Record, then stop; [trRes] and [chatRes] answer the two requests. *)
Definition record_and_stop (trRes chatRes : FetchResult)
  : list ChatInterface.Input :=
  [ ChatInterface.MicButton (inr tt) [] offline offline;
    ChatInterface.MicButton (inr tt) [1%N; 2%N] trRes chatRes ].

(** A reply in Devanagari. *)
Definition namaste : jsstring :=
  [0x0928; 0x092E; 0x0938; 0x094D; 0x0924; 0x0947]%N.

Definition hindi_reply : jsval :=
  obj [("response", JStr namaste); ("session_id", str "s1")].

Definition server_error : FetchResult :=
  answer 500 (obj [("detail", str "boom")]).

(** A transcription of silence: status 200 and an empty text. *)
Definition silence : FetchResult := answer 200 (obj [("text", JStr [])]).

(** A recorder of the chat panel that was started in the first session. *)
Definition panel_recorder : ChatInterface.MediaRecorder :=
  {| ChatInterface.onstop_activeSession := u16 "1";
     ChatInterface.chunks := [[1%N; 2%N]] |}.

Definition panel_form : FormData :=
  [ ("session_id", FText (str "1")); ("message", FText (str "hi")) ].

Definition contents (s : ChatInterface.Session.t) : list jsval :=
  map ChatInterface.Message.content (ChatInterface.Session.messages s).

Definition contents_after (inputs : list ChatInterface.Input)
  : list (list jsval) :=
  map contents (ChatInterface.sessions (ChatInterface.run inputs panel)).

Definition first_session : ChatInterface.Session.t :=
  {| ChatInterface.Session.id := u16 "1";
     ChatInterface.Session.name := u16 "New Chat";
     ChatInterface.Session.messages := [];
     ChatInterface.Session.createdAt := 1699999999000%Z |}.

(** Type "hi" and send it while the network is down. *)
Definition one_message : list ChatInterface.Input :=
  [ ChatInterface.TypeText (u16 "hi"); ChatInterface.Send offline ].

(** Two clicks on "New Chat" within one reading of the clock. *)
Definition twin_sessions : list ChatInterface.Input :=
  [ ChatInterface.NewChat; ChatInterface.NewChat ].

(** The voice screen as it is mounted first. *)
Definition voice_page : VoiceTasks.Page :=
  VoiceTasks.settled VoiceMode.initial [].

(** The button is pressed twice before the microphone is granted; both
    requests are granted, the button is pressed again, and the recording
    it stops is transcribed and answered. *)
Definition double_grant : list VoiceTasks.Event :=
  [ VoiceTasks.Press;
    VoiceTasks.Press;
    VoiceTasks.MicSettles 0 (inr tt);
    VoiceTasks.MicSettles 0 (inr tt);
    VoiceTasks.Press;
    VoiceTasks.RecorderFires 0 [1%N; 2%N];
    VoiceTasks.TranscriptionSettles 0 heard;
    VoiceTasks.ChatSettles 0 reply_with_id ].

(** The button is pressed twice while the microphone is being asked for;
    the second request is granted, that recording is stopped, transcribed
    and answered, and the answer is spoken; then the first request is
    granted. *)
Definition late_grant : list VoiceTasks.Event :=
  [ VoiceTasks.Press;
    VoiceTasks.Press;
    VoiceTasks.MicSettles 1 (inr tt);
    VoiceTasks.Press;
    VoiceTasks.RecorderFires 1 [1%N; 2%N];
    VoiceTasks.TranscriptionSettles 1 heard;
    VoiceTasks.ChatSettles 1 reply_with_id;
    VoiceTasks.MicSettles 0 (inr tt) ].

(** A recording is stopped and transcribed; while its chat request is
    pending the mode is toggled to chat and back, and a new recording is
    started; then the chat request is answered. *)
Definition reply_after_remount : list VoiceTasks.Event :=
  [ VoiceTasks.Press;
    VoiceTasks.MicSettles 0 (inr tt);
    VoiceTasks.Press;
    VoiceTasks.RecorderFires 0 [1%N; 2%N];
    VoiceTasks.TranscriptionSettles 0 heard;
    VoiceTasks.Remount;
    VoiceTasks.Press;
    VoiceTasks.MicSettles 1 (inr tt);
    VoiceTasks.ChatSettles 0 reply_with_id ].

(** After [late_grant], the recording that was started last is stopped
    and transcribed. *)
Definition late_grant_stopped : list VoiceTasks.Event :=
  late_grant
  ++ [ VoiceTasks.Press;
       VoiceTasks.RecorderFires 0 [3%N; 4%N];
       VoiceTasks.TranscriptionSettles 0 heard ].

(** One interaction whose reply carries a session id, a second recording,
    and its end: the button is pressed and the recorder fires. *)
Definition second_talk_stopped : list VoiceTasks.Event :=
  flat_map VoiceTasks.sequential (firstn 3 three_talks)
  ++ [ VoiceTasks.Press; VoiceTasks.RecorderFires 0 [1%N; 2%N] ].

(** The utterance made of the reply [reply_with_id]. *)
Definition spoken_reply : Utterance :=
  {| utt_text := str "a"; utt_lang := "en-IN" |}.

End Scenario.

(* ================================================================== *)
(** ** Vocabulary of the bookkeeping statements *)
(* ================================================================== *)

Module Ledger.
Import JS Web Observe.
Local Open Scope string_scope.
Local Open Scope list_scope.

(** How many logged calls satisfy [p]. *)
Definition count (p : Call -> bool) (cs : list Call) : nat :=
  List.length (filter p cs).

Definition is_get_user_media (c : Call) : bool :=
  match c with GetUserMedia => true | _ => false end.

Definition is_recorder_start (c : Call) : bool :=
  match c with RecorderStart => true | _ => false end.

Definition is_recorder_stop (c : Call) : bool :=
  match c with RecorderStop => true | _ => false end.

Definition is_tracks_stop (c : Call) : bool :=
  match c with TracksStop => true | _ => false end.

Definition is_object_url (c : Call) : bool :=
  match c with CreateObjectURL _ => true | _ => false end.

Definition is_cancel (c : Call) : bool :=
  match c with Cancel => true | _ => false end.

(** One more recorder started than stopped while [open] holds. *)
Definition open_recorders (open : bool) : nat := if open then 1 else 0.

(** The books of the voice screen: what its log and its cells satisfy
    between two events. *)
Record voice_books (w : VoiceMode.World) : Prop := {
  vb_enabled : VoiceMode.isProcessing (VoiceMode.state w) = false;
  vb_open :
    count is_recorder_start (VoiceMode.calls w)
    = count is_recorder_stop (VoiceMode.calls w)
      + open_recorders (VoiceMode.isListening (VoiceMode.state w));
  vb_asked :
    count is_recorder_start (VoiceMode.calls w)
    <= count is_get_user_media (VoiceMode.calls w);
  vb_released :
    count is_tracks_stop (VoiceMode.calls w)
    = count is_recorder_stop (VoiceMode.calls w);
  vb_uploaded :
    count_fetch VoiceMode.transcribe_url (VoiceMode.calls w)
    = count is_recorder_stop (VoiceMode.calls w);
  vb_chatted :
    count_fetch VoiceMode.chat_url (VoiceMode.calls w)
    <= count_fetch VoiceMode.transcribe_url (VoiceMode.calls w);
  vb_spoken :
    count is_speak (VoiceMode.calls w)
    <= count_fetch VoiceMode.chat_url (VoiceMode.calls w);
  vb_blank :
    VoiceMode.isListening (VoiceMode.state w) = true ->
    VoiceMode.audioChunksRef w = []
    /\ VoiceMode.transcript (VoiceMode.state w) = JStr []
    /\ VoiceMode.response (VoiceMode.state w) = JStr []
}.

(** The ids of the sessions of the chat panel, in order. *)
Definition ids (w : ChatInterface.World) : list jsstring :=
  map ChatInterface.Session.id (ChatInterface.sessions w).

(** The name [createNewSession] gives the session it puts at position [k],
    and the name of the session the panel starts with. *)
Definition name_at (k : nat) : jsstring :=
  match k with
  | O => u16 "New Chat"
  | S _ => u16 "Chat " ++ Number_toString (Z.of_nat k + 1)
  end.

Definition is_new_chat (i : ChatInterface.Input) : bool :=
  match i with ChatInterface.NewChat => true | _ => false end.

(** The books of the chat panel. *)
Record panel_books (w : ChatInterface.World) : Prop := {
  pb_active : In (ChatInterface.activeSession w) (ids w);
  pb_closure :
    forall rec,
      ChatInterface.mediaRecorderRef w = Some rec ->
      In (ChatInterface.onstop_activeSession rec) (ids w);
  pb_ref :
    ChatInterface.isRecording w = true ->
    ChatInterface.mediaRecorderRef w <> None;
  pb_open :
    count is_recorder_start (ChatInterface.calls w)
    = count is_recorder_stop (ChatInterface.calls w)
      + open_recorders (ChatInterface.isRecording w);
  pb_released :
    count is_tracks_stop (ChatInterface.calls w)
    = count is_recorder_stop (ChatInterface.calls w);
  pb_uploaded :
    count_fetch ChatInterface.transcribe_url (ChatInterface.calls w)
    = count is_recorder_stop (ChatInterface.calls w);
  pb_requests :
    forall body,
      In (Fetch ChatInterface.chat_url body) (ChatInterface.calls w) ->
      exists i,
        field_values "session_id" body = [FText (JStr i)] /\ In i (ids w)
}.

(** The ids of the sessions that [ops] create, in order. *)
Fixpoint created (ops : list ChatInterface.Op) : list jsstring :=
  match ops with
  | [] => []
  | ChatInterface.Add _ _ :: r => created r
  | ChatInterface.Create n :: r => ChatInterface.Session.id n :: created r
  end.

(** A denied microphone, and one click of the voice screen with it. *)
Definition denied : Error + unit := inl (mkError "Permission denied").

Definition talk_denied : VoiceMode.Answers :=
  {| VoiceMode.mic := denied; VoiceMode.recorded := [];
     VoiceMode.transcribed := Scenario.offline;
     VoiceMode.chatted := Scenario.offline |}.

(** The chat panel with ["  hi "] typed in. *)
Definition typed : ChatInterface.World :=
  ChatInterface.run [ChatInterface.TypeText (u16 "  hi ")] Scenario.panel.

Definition answer_body : jsval :=
  Scenario.obj [ ("response", Scenario.str "a");
                 ("session_id", Scenario.str "s1") ].

Definition picture : File :=
  {| file_parts := [ {| blob_parts := [[7%N]]; blob_type := "image/png" |} ];
     file_name := "scan.png" |}.

End Ledger.

(* ================================================================== *)
(** ** Vocabulary of the statements about suspended handlers *)
(* ================================================================== *)

Module Provenance.
Import JS Web VoiceMode VoiceTasks Observe.
Local Open Scope string_scope.
Local Open Scope list_scope.

(** The chat answer that the event [e] delivers to a handler of the page
    [p] waiting for it. *)
Definition delivered (p : Page) (e : Event) : list FetchResult :=
  match e with
  | ChatSettles k chatRes =>
      match resume k p with
      | Some ((_, AwaitingChat), _) => [chatRes]
      | _ => []
      end
  | _ => []
  end.

(** The chat answers delivered while [events] are played from [p]. *)
Fixpoint deliveries (events : list Event) (p : Page) : list FetchResult :=
  match events with
  | [] => []
  | e :: r => delivered p e ++ deliveries r (fire p e)
  end.

(** The session ids that the successful replies among [replies] supplied. *)
Definition supplied_ids (replies : list FetchResult) : list jsval :=
  flat_map (fun r => match reply r with
                     | Some data => [field data "session_id"]
                     | None => []
                     end) replies.

(** [v] is [null], as the session id is at first, or one of [ids]. *)
Definition known (ids : list jsval) (v : jsval) : Prop :=
  v = JNull \/ In v ids.

(** The session ids a component holds: in its cell and in the closure of
    the recorder in its ref. *)
Definition world_known (ids : list jsval) (w : World) : Prop :=
  known ids (sessionId (state w))
  /\ forall rec, mediaRecorderRef w = Some rec ->
                 known ids (onstop_sessionId rec).

(** The session id a suspended handler holds. *)
Definition task_known (ids : list jsval) (t : nat * Task) : Prop :=
  match snd t with
  | AwaitingMic sid => known ids sid
  | Stopped rec => known ids (onstop_sessionId rec)
  | AwaitingTranscription sid => known ids sid
  | AwaitingChat => True
  end.

Definition page_known (ids : list jsval) (p : Page) : Prop :=
  world_known ids (screen p)
  /\ Forall (world_known ids) (unmounted p)
  /\ Forall (task_known ids) (tasks p).

(** Every chat request among [new] holds one [message] field, and a
    [session_id] field exactly when the id it was made with, one of
    [ids] or [null], is non-empty. *)
Definition chat_forms (ids : list jsval) (new : list Call) : Prop :=
  forall body,
    In (Fetch chat_url body) new ->
    (exists message, field_values "message" body = [FText message])
    /\ exists sid,
         known ids sid
         /\ field_values "session_id" body = session_id_fields sid.

(** The part [m] of a handler, run in a component that holds session ids
    among [ids], leaves it holding ids among [ids'], sends chat requests
    only with ids among [ids], and gives a result that satisfies [post]. *)
Definition keeps {A} (ids ids' : list jsval) (post : A -> Prop)
    (m : M World A) : Prop :=
  forall w,
    world_known ids w ->
    world_known ids' (fst (m w))
    /\ (exists new,
          calls (fst (m w)) = calls w ++ new /\ chat_forms ids new)
    /\ forall a, snd (m w) = inr a -> post a.

End Provenance.

(* ================================================================== *)
(** ** Running handlers *)
(* ================================================================== *)

(** Unfold the plumbing of handlers, leaving the decisions of the source. *)
Ltac plumbing :=
  unfold Web.when in *;
  unfold Web.exec, Web.bind, Web.try_catch, Web.await, Web.ret, Web.throw,
         Web.modify, Web.read in *.

(** Case analysis on every decision of the goal, innermost first. *)
Ltac decide_all :=
  repeat match goal with
         | |- context [match ?x with _ => _ end] =>
             lazymatch x with
             | context [match _ with _ => _ end] => fail
             | _ => destruct x eqn:?; cbn
             end
         end.

(** Two logs that differ only in how their appends are nested. *)
Ltac same_log := rewrite <- ?app_assoc; simpl; reflexivity.

Section Logs.
Import Web Observe.

Lemma issued_app (before new : list Call) :
  issued before (before ++ new) = new.
Proof.
  unfold issued. induction before as [ | c r IH ]; simpl.
  - reflexivity.
  - exact IH.
Qed.

Lemma issued_eq (before after new : list Call) :
  after = before ++ new -> issued before after = new.
Proof. intros ->. apply issued_app. Qed.

Lemma negb_false_true (b : bool) : negb b = false -> b = true.
Proof. destruct b; simpl; congruence. Qed.

Lemma reply_inv (r : FetchResult) (data : JS.jsval) (k : string) :
  reply r = Some data ->
  exists res,
    r = inr res /\ ok res = true /\ json res = inr data
    /\ nullish data = false
    /\ JS.prop data k = inr (field data k).
Proof.
  unfold reply, field. destruct r as [e | res]; [ discriminate | ].
  destruct (ok res) eqn:Hok; [ | discriminate ].
  destruct (json res) as [e | d] eqn:Hjson; [ discriminate | ].
  destruct (nullish d) eqn:Hn; [ discriminate | ].
  intros H. inversion H; subst. exists res.
  split; [ reflexivity | ].
  split; [ exact Hok | ].
  split; [ exact Hjson | ].
  split; [ exact Hn | ].
  destruct data; simpl in *; try discriminate; reflexivity.
Qed.

End Logs.

(* ================================================================== *)
(** ** Properties of [detectLanguage] *)
(* ================================================================== *)

Section DetectLanguage.
Import JS VoiceMode.
Local Open Scope string_scope.

Lemma test_range_hit (lo hi : N) (text : jsstring) :
  test_range lo hi text = true ->
  exists c, In c text /\ (lo <=? c)%N && (c <=? hi)%N = true.
Proof.
  unfold test_range. intros H.
  apply existsb_exists in H. exact H.
Qed.

Lemma listed_range_miss (lo hi : N) (text : jsstring) :
  In (lo, hi) script_ranges ->
  (forall c, In c text -> in_listed_script c = false) ->
  test_range lo hi text = false.
Proof.
  intros Hin Hnone.
  destruct (test_range lo hi text) eqn:E; [ | reflexivity ].
  apply test_range_hit in E. destruct E as [c [Hc Hr]].
  specialize (Hnone c Hc).
  assert (in_listed_script c = true) as Hyes.
  { unfold in_listed_script. apply existsb_exists.
    exists (lo, hi). split; [ exact Hin | exact Hr ]. }
  congruence.
Qed.

(** C9. [detectLanguage] is defined on every string; its result is always
    one of the fifteen tags of [language_tags]; it is ["en-IN"] for every
    string none of whose code units lies in a listed script range; and it is
    never ["mr-IN"], the Marathi test being reached only when the Hindi test
    on the same range has failed. *)
Theorem detectLanguage_tags (text : jsstring) :
  In (detectLanguage text) language_tags
  /\ ((forall c, In c text -> in_listed_script c = false) ->
      detectLanguage text = "en-IN")
  /\ detectLanguage text <> "mr-IN".
Proof.
  split; [ | split ].
  - unfold detectLanguage, language_tags.
    repeat match goal with
           | |- context [if ?b then _ else _] => destruct b
           end; simpl; tauto.
  - intros Hnone. unfold detectLanguage.
    repeat (rewrite listed_range_miss;
            [ | unfold script_ranges; simpl; tauto | exact Hnone ]).
    reflexivity.
  - unfold detectLanguage.
    destruct (test_range 2304 2431 text); simpl; [ discriminate | ].
    repeat match goal with
           | |- context [if ?b then _ else _] => destruct b
           end; discriminate.
Qed.

Lemma detectLanguage_tags_witness :
  (forall c, In c (u16 "Hello, world") -> in_listed_script c = false)
  /\ detectLanguage (u16 "Hello, world") = "en-IN".
Proof.
  assert (forall c, In c (u16 "Hello, world") -> in_listed_script c = false)
    as H.
  { intros c Hc. simpl in Hc.
    repeat (destruct Hc as [Hc | Hc]; [ subst c; reflexivity | ]).
    contradiction. }
  split; [ exact H | ].
  exact (proj1 (proj2 (detectLanguage_tags (u16 "Hello, world"))) H).
Defined.

End DetectLanguage.

(* ================================================================== *)
(** ** The chat panel: sending text *)
(* ================================================================== *)

Section SendMessage.
Import JS Web ChatInterface.

Lemma trimStart_spaces (s : jsstring) :
  Forall (fun c => is_space c = true) s -> trimStart s = [].
Proof.
  induction 1 as [ | c r Hc _ IH ]; simpl.
  - reflexivity.
  - rewrite Hc. exact IH.
Qed.

Lemma trim_spaces (s : jsstring) :
  Forall (fun c => is_space c = true) s -> trim s = [].
Proof.
  intros H. unfold trim, trimEnd.
  rewrite (trimStart_spaces H). reflexivity.
Qed.

(** C10. [handleSendMessage] on an input that is empty or made of white
    space only returns at once: the world it leaves is the world it found
    (same sessions, same active session, same input field, no platform
    call logged, so no request and no message). *)
Theorem handleSendMessage_blank (chatRes : FetchResult) (w : World) :
  Forall (fun c => is_space c = true) (inputMessage w) ->
  handleSendMessage chatRes w = (w, inr tt).
Proof.
  intros H. unfold handleSendMessage. plumbing.
  rewrite (trim_spaces H). reflexivity.
Qed.

Lemma handleSendMessage_blank_witness :
  let w := exec (setInputMessage (u16 "   "))
                (initial (fun _ => 0%Z) (fun _ => []) 0%Z) in
  Forall (fun c => is_space c = true) (inputMessage w)
  /\ handleSendMessage (inl (mkError "offline")) w = (w, inr tt).
Proof.
  assert (Forall (fun c => is_space c = true) (u16 "   ")) as H.
  { repeat constructor. }
  split; [ exact H | ].
  apply (@handleSendMessage_blank (inl (mkError "offline"))
           (exec (setInputMessage (u16 "   "))
                 (initial (fun _ => 0%Z) (fun _ => []) 0%Z))).
  exact H.
Defined.

End SendMessage.

(* ================================================================== *)
(** ** The voice screen *)
(* ================================================================== *)

Ltac open_voice :=
  unfold VoiceMode.toggleListening, VoiceMode.stopListening,
         VoiceMode.startListening, VoiceMode.onstop,
         VoiceMode.ondataavailable, VoiceMode.handleTranscription,
         VoiceMode.handleChat, VoiceMode.speak, VoiceMode.cancel,
         VoiceMode.toast, VoiceMode.call, VoiceMode.setIsListening,
         VoiceMode.setIsProcessing, VoiceMode.setTranscript,
         VoiceMode.setResponse, VoiceMode.setSessionId,
         VoiceMode.set_mediaRecorderRef, VoiceMode.set_audioChunksRef,
         VoiceMode.speaking, VoiceMode.pending in *;
  plumbing.

(** Run the handlers of the voice screen as far as their decisions allow. *)
Ltac eval_voice :=
  cbv beta iota zeta delta
    [ VoiceMode.toggleListening VoiceMode.stopListening
      VoiceMode.startListening VoiceMode.onstop VoiceMode.ondataavailable
      VoiceMode.handleTranscription VoiceMode.handleChat VoiceMode.speak
      VoiceMode.cancel VoiceMode.toast VoiceMode.call
      VoiceMode.setIsListening VoiceMode.setIsProcessing
      VoiceMode.setTranscript VoiceMode.setResponse VoiceMode.setSessionId
      VoiceMode.set_mediaRecorderRef VoiceMode.set_audioChunksRef
      VoiceMode.set_synth VoiceMode.with_state VoiceMode.step
      Web.when Web.exec Web.bind Web.try_catch Web.await Web.ret Web.throw
      Web.modify Web.read fst snd
      VoiceMode.state VoiceMode.mediaRecorderRef VoiceMode.audioChunksRef
      VoiceMode.synth VoiceMode.calls VoiceMode.isListening
      VoiceMode.isProcessing VoiceMode.transcript VoiceMode.response
      VoiceMode.sessionId VoiceMode.onstop_sessionId negb ].

Ltac decide_voice :=
  repeat match goal with
         | |- context [match ?x with _ => _ end] =>
             lazymatch x with
             | context [match _ with _ => _ end] => fail
             | _ => destruct x eqn:?; eval_voice
             end
         end.

(** Which logged call a membership hypothesis speaks of. *)
Ltac pick_voice_call H :=
  simpl in H;
  repeat (destruct H as [H | H];
          [ try discriminate H;
            try (unfold VoiceMode.transcribe_url, VoiceMode.chat_url in H;
                 discriminate H);
            try (inversion H; subst; clear H)
          | ]);
  try contradiction.

(** Run the handlers of the voice screen and their parts. *)
Ltac eval_parts :=
  cbv beta iota zeta delta
    [ VoiceTasks.startListening_begin VoiceTasks.startListening_resume
      VoiceTasks.stopListening_now VoiceTasks.handleTranscription_begin
      VoiceTasks.onstop_begin VoiceTasks.onstop_end
      VoiceTasks.handleChat_begin VoiceTasks.handleChat_resume
      VoiceTasks.handleTranscription_resume
      VoiceMode.toggleListening VoiceMode.stopListening
      VoiceMode.startListening VoiceMode.onstop VoiceMode.ondataavailable
      VoiceMode.handleTranscription VoiceMode.handleChat VoiceMode.speak
      VoiceMode.cancel VoiceMode.toast VoiceMode.call
      VoiceMode.setIsListening VoiceMode.setIsProcessing
      VoiceMode.setTranscript VoiceMode.setResponse VoiceMode.setSessionId
      VoiceMode.set_mediaRecorderRef VoiceMode.set_audioChunksRef
      VoiceMode.set_synth VoiceMode.with_state VoiceMode.step
      Web.when Web.exec Web.bind Web.try_catch Web.await Web.ret Web.throw
      Web.modify Web.read fst snd
      VoiceMode.state VoiceMode.mediaRecorderRef VoiceMode.audioChunksRef
      VoiceMode.synth VoiceMode.calls VoiceMode.isListening
      VoiceMode.isProcessing VoiceMode.transcript VoiceMode.response
      VoiceMode.sessionId VoiceMode.onstop_sessionId negb ].

Ltac decide_parts :=
  repeat match goal with
         | |- context [match ?x with _ => _ end] =>
             lazymatch x with
             | context [match _ with _ => _ end] => fail
             | _ => destruct x eqn:?; eval_parts
             end
         end.

(** Move the page, leaving the handlers folded. *)
Ltac eval_page :=
  cbv beta iota zeta delta
    [ VoiceTasks.play VoiceTasks.sequential VoiceTasks.settled
      VoiceTasks.fire VoiceTasks.resume VoiceTasks.take VoiceTasks.push
      VoiceTasks.on_screen
      VoiceTasks.screen VoiceTasks.unmounted VoiceTasks.tasks
      fold_left app fst snd ].


Section VoiceProofs.
Import JS Web Observe VoiceMode.
Local Open Scope string_scope.
Local Open Scope list_scope.

Lemma idle_quiet (s : Synth) :
  idle s <-> speaking s = false /\ pending s = false.
Proof.
  unfold idle, speaking, pending.
  destruct (spoken s), (queue s); intuition congruence.
Qed.

Lemma step_inv (w : World) (i : Input) :
  listening_inv w -> listening_inv (step w i).
Proof.
  intros HI. destruct i as [a | ]; unfold step.
  - destruct (isProcessing (state w)); [ exact HI | ].
    unfold toggleListening. plumbing. cbn.
    destruct (isListening (state w)) eqn:HL.
    + destruct (HI HL) as [[Hsp Hq] [rec [Href Hsid]]].
      unfold listening_inv. open_voice. cbn. rewrite Href, HL. cbn.
      rewrite Hsp, Hq. cbn.
      decide_all; cbn; intros; discriminate.
    + unfold listening_inv, idle. open_voice. cbn.
      decide_all; cbn; intros; try congruence;
        (split; [ split; (reflexivity || assumption)
                | eexists; split; reflexivity ]).
  - unfold listening_inv, idle, speech_end.
    destruct (isListening (state w)) eqn:HL.
    + destruct (HI HL) as [[Hsp Hq] Href].
      rewrite Hq. cbn. intros _. split; [ split; reflexivity | ].
      exact Href.
    + destruct (queue (synth w)); cbn; intros; congruence.
Qed.

Lemma run_inv (inputs : list Input) (w : World) :
  listening_inv w -> listening_inv (run inputs w).
Proof.
  unfold run. revert w.
  induction inputs as [ | i r IH ]; intros w HI; simpl.
  - exact HI.
  - apply IH. apply step_inv. exact HI.
Qed.

Lemma initial_inv : listening_inv initial.
Proof. unfold listening_inv. simpl. discriminate. Qed.




Lemma click_chat_form (inputs : list Input) (a : Answers) :
  let w := run inputs initial in
  isListening (state w) = true ->
  exists new,
    calls (step w (Click a)) = calls w ++ new
    /\ forall body,
         In (Fetch chat_url body) new ->
         exists message,
           field_values "message" body = [FText message]
           /\ field_values "session_id" body
              = (if truthy (sessionId (state w))
                 then [FText (sessionId (state w))] else []).
Proof.
  intros w HL.
  destruct (run_inv inputs initial_inv HL) as [[Hsp Hq] [rec [Href Hsid]]].
  fold w in Hsp, Hq, Href, Hsid.
  unfold step. destruct (isProcessing (state w)).
  - exists []. split; [ symmetry; apply app_nil_r | intros body [] ].
  - unfold toggleListening. open_voice. cbn. rewrite HL. cbn.
    rewrite Href, HL. cbn. rewrite Hsp, Hq. cbn. rewrite Hsid.
    decide_all; cbn;
      (eexists; split; [ same_log | ]);
      intros body Hin; pick_voice_call Hin;
      eexists; split; reflexivity.
Qed.









(** C8. When the chat request succeeds and the [response] field of the
    reply is [r], with [txt] its text, [handleChat] makes exactly one
    utterance: its text is [r] as received, its language tag is
    [detectLanguage txt], and it is handed to the synthesiser (spoken at
    once when nothing is being spoken, queued otherwise). *)
Theorem handleChat_speaks_reply (sid message : jsval) (res : Response)
    (data r : jsval) (txt : jsstring) (w : World) :
  ok res = true ->
  json res = inr data ->
  prop data "response" = inr r ->
  ToString r = inr txt ->
  let w' := exec (handleChat sid message (inr res)) w in
  let u := {| utt_text := r; utt_lang := detectLanguage txt |} in
  (exists body, calls w' = calls w ++ [Fetch chat_url body; Speak u])
  /\ synth w' =
       (if speaking (synth w)
        then {| spoken := spoken (synth w);
                queue := queue (synth w) ++ [u] |}
        else {| spoken := Some u; queue := queue (synth w) |}).
Proof.
  intros Hok Hjson Hr Htxt w' u. subst w' u.
  assert (exists s, prop data "session_id" = inr s) as [s Hs].
  { destruct data; simpl in *; try discriminate; eexists; reflexivity. }
  open_voice. cbn. rewrite Hok. cbn. rewrite Hjson, Hr, Hs. cbn.
  rewrite Htxt. cbn.
  destruct (spoken (synth w)); cbn.
  - split; [ eexists; same_log | reflexivity ].
  - split; [ eexists; same_log | reflexivity ].
Qed.

Lemma handleChat_speaks_reply_witness :
  ok {| status := 200; json := inr Scenario.hindi_reply |} = true
  /\ prop Scenario.hindi_reply "response" = inr (JStr Scenario.namaste)
  /\ synth (exec (handleChat JNull (Scenario.str "hi")
                             (inr {| status := 200;
                                     json := inr Scenario.hindi_reply |}))
                  initial)
     = {| spoken := Some {| utt_text := JStr Scenario.namaste;
                            utt_lang := "hi-IN" |};
          queue := [] |}.
Proof.
  split; [ reflexivity | split; [ reflexivity | ] ].
  exact (proj2 (@handleChat_speaks_reply
                  JNull (Scenario.str "hi")
                  {| status := 200; json := inr Scenario.hindi_reply |}
                  Scenario.hindi_reply (JStr Scenario.namaste)
                  Scenario.namaste initial
                  eq_refl eq_refl eq_refl eq_refl)).
Defined.

(** What [startListening] does about speech.  It leaves the synthesiser
    idle whatever it was doing: when it speaks or has utterances queued,
    [cancel] is called, and that call comes before [getUserMedia], so
    before any audio is captured; no utterance is started by
    [startListening].  Over any sequence of clicks and ends of utterances
    from the initial screen, each handler running to completion before the
    next event, the synthesiser neither speaks nor has anything queued
    whenever the screen is listening. *)
Theorem startListening_cancels_speech :
  (forall (w : World) (mic : Error + unit),
      let w' := exec (startListening mic) w in
      idle (synth w')
      /\ exists post,
           calls w' =
             calls w
             ++ (if speaking (synth w) || pending (synth w)
                 then [Cancel] else [])
             ++ GetUserMedia :: post
           /\ existsb is_speak post = false)
  /\ (forall inputs : list Input,
        isListening (state (run inputs initial)) = true ->
        speaking (synth (run inputs initial)) = false
        /\ pending (synth (run inputs initial)) = false).
Proof.
  split.
  - intros w mic w'. subst w'. unfold idle. open_voice. cbn.
    decide_all; cbn;
      (split; [ split; (reflexivity || assumption)
              | eexists; split; [ same_log | reflexivity ] ]).
  - intros inputs HL. apply idle_quiet.
    exact (proj1 (run_inv inputs initial_inv HL)).
Qed.

Lemma startListening_cancels_speech_witness :
  isListening (state (run (firstn 3 Scenario.three_talks) initial)) = true
  /\ speaking (synth (run (firstn 3 Scenario.three_talks) initial)) = false
  /\ pending (synth (run (firstn 3 Scenario.three_talks) initial)) = false.
Proof.
  split; [ reflexivity | ].
  exact (proj2 startListening_cancels_speech
               (firstn 3 Scenario.three_talks) eq_refl).
Defined.

Lemma voice_chat_after_transcription (sid : jsval) (blob : Blob)
    (trRes chatRes : FetchResult) (w : World) :
  exists rest,
    calls (exec (handleTranscription sid blob trRes chatRes) w) =
      calls w
      ++ Fetch transcribe_url [("file", FBlob blob "recording.webm")] :: rest
    /\ count_fetch transcribe_url rest = 0
    /\ forall body,
         In (Fetch chat_url body) rest ->
         exists res data t,
           trRes = inr res /\ ok res = true /\ json res = inr data
           /\ prop data "text" = inr t
           /\ field_values "message" body = [FText t].
Proof.
  open_voice. cbn.
  decide_all;
    (eexists; split; [ same_log | split; [ reflexivity | ] ]);
    intros body Hin; pick_voice_call Hin;
    (do 3 eexists;
     repeat (split; [ solve [ eauto using negb_false_true ] | ]));
    match goal with
    | |- context [truthy ?v] => destruct (truthy v); reflexivity
    | _ => reflexivity
    end.
Qed.

Lemma voice_transcript (sid : jsval) (blob : Blob)
    (trRes chatRes : FetchResult) (w : World) (data : jsval) :
  reply trRes = Some data ->
  transcript (state (exec (handleTranscription sid blob trRes chatRes) w))
  = field data "text".
Proof.
  intros H.
  destruct (@reply_inv trRes data "text" H)
    as [res [-> [Hok [Hjson [Hn Htext]]]]].
  open_voice. cbn. rewrite Hok. cbn. rewrite Hjson, Htext. cbn.
  decide_all; reflexivity.
Qed.

Lemma voice_one_upload (w : World) (a0 a : Answers) :
  isListening (state w) = false ->
  isProcessing (state w) = false ->
  mic a0 = inr tt ->
  exists new,
    calls (step (step w (Click a0)) (Click a)) = calls w ++ new
    /\ count_fetch transcribe_url new = 1.
Proof.
  intros HL HP Hmic.
  destruct w as [[l p t r s] ref chunks syn cs]. simpl in HL, HP. subst l p.
  unfold step, toggleListening. open_voice. cbn. rewrite Hmic. cbn.
  decide_all; (eexists; split; [ same_log | reflexivity ]).
Qed.

End VoiceProofs.

(* ================================================================== *)
(** ** The voice screen with suspended handlers *)
(* ================================================================== *)

Section Schedule.
Import JS Web Observe Ledger VoiceMode VoiceTasks.
Local Open Scope string_scope.
Local Open Scope list_scope.

Lemma on_instance_mounted (A : Type) (m : M World A) (w : World)
    (u : list World) (ts : list (nat * Task)) :
  on_instance (List.length u) m
              {| screen := w; unmounted := u; tasks := ts |}
  = on_screen m {| screen := w; unmounted := u; tasks := ts |}.
Proof.
  unfold on_instance. cbn [unmounted].
  replace (nth_error u (List.length u)) with (@None World).
  - reflexivity.
  - symmetry. apply nth_error_None. apply Nat.le_refl.
Qed.

Lemma toggleListening_parts (a : Answers) (w : World) :
  exec (toggleListening a) w
  = if isListening (state w)
    then exec (stopListening (recorded a) (transcribed a) (chatted a)) w
    else exec (startListening (mic a)) w.
Proof.
  unfold toggleListening, exec, bind, read.
  destruct (isListening (state w)); reflexivity.
Qed.

(** [startListening] is its two parts, one after the other. *)
Lemma startListening_parts (mic : Error + unit) (w : World) :
  exec (startListening mic) w
  = exec (startListening_resume (sessionId (state w)) mic)
         (exec startListening_begin w).
Proof.
  destruct w as [[l p t r s] ref chunks syn cs].
  eval_parts. decide_parts; reflexivity.
Qed.

Lemma startListening_begin_gives (w : World) :
  startListening_begin w
  = (exec startListening_begin w, inr (sessionId (state w))).
Proof.
  destruct w as [[l p t r s] ref chunks syn cs].
  eval_parts. decide_parts; reflexivity.
Qed.

(** [stopListening] with the events of the recorder and the answers to
    the two requests is the parts of the handlers, one after the other. *)
Lemma stopListening_parts (d : Data) (tr ch : FetchResult) (w : World) :
  exec (stopListening d tr ch) w
  = match stopListening_now w with
    | (w1, inr (Some rec)) =>
        match handleTranscription_resume (onstop_sessionId rec) tr
                (exec (ondataavailable d ;; onstop_begin)%handler w1) with
        | (w3, inr true) =>
            exec (handleChat_resume ch ;; onstop_end)%handler w3
        | (w3, _) => exec onstop_end w3
        end
    | (w1, _) => w1
    end.
Proof.
  destruct w as [[l p t r s] ref chunks syn cs].
  eval_parts. decide_parts; reflexivity.
Qed.

Lemma sequential_step (w : World) (u : list World) (i : Input) :
  play (sequential i) (settled w u) = settled (step w i) u.
Proof.
  destruct i as [[m d tr ch] | ]; [ | reflexivity ].
  unfold step. eval_page. cbn [mic recorded transcribed chatted].
  destruct (isProcessing (state w)); [ reflexivity | ].
  rewrite toggleListening_parts.
  cbn [mic recorded transcribed chatted].
  destruct (isListening (state w)).
  - rewrite stopListening_parts. unfold exec.
    destruct (stopListening_now w) as [w1 [e | [rec | ]]]; eval_page;
      try reflexivity.
    rewrite on_instance_mounted. eval_page.
    destruct ((ondataavailable d ;; onstop_begin)%handler w1) as [w2 r2].
    eval_page. rewrite on_instance_mounted. eval_page.
    destruct (handleTranscription_resume (onstop_sessionId rec) tr w2)
      as [w3 [e | [ | ]]]; eval_page;
      rewrite on_instance_mounted; eval_page;
      match goal with
      | |- context [?m w3] => destruct (m w3); reflexivity
      end.
  - rewrite startListening_parts, startListening_begin_gives. eval_page.
    rewrite on_instance_mounted. eval_page. unfold exec.
    destruct (startListening_resume (sessionId (state w)) m
                                    (fst (startListening_begin w)));
      reflexivity.
Qed.

(** X22. The run-to-completion semantics of the voice screen is a schedule
    of its semantics with suspended handlers: from a page on which no
    handler is suspended, playing for every input the click followed at
    once by the settling of what the click awaits (the microphone, the
    events of the stopped recorder, the two requests) gives the screen
    that [run] gives, the unmounted components untouched, and leaves no
    handler suspended. *)
Theorem run_is_a_schedule (inputs : list Input) (w : World)
    (u : list World) :
  play (flat_map sequential inputs) (settled w u) = settled (run inputs w) u.
Proof.
  revert w. induction inputs as [ | i r IH ]; intros w; [ reflexivity | ].
  cbn [flat_map]. unfold play. rewrite fold_left_app.
  fold (play (sequential i) (settled w u)). rewrite sequential_step.
  apply IH.
Qed.

(** C7. The synthesiser speaks while a new recording is in progress.
    [startListening] cancels speech before [await getUserMedia] and not
    after it, and the button is enabled while the microphone is being
    asked for.
    - In [double_grant] the button is pressed twice before the microphone
      is granted: two recorders are started, the third press stops the one
      in the ref, and the reply to it is spoken while the other recorder
      is still recording and the screen says it is not listening.
    - In [late_grant] the first of the two requests for the microphone is
      granted after the reply to the second recording has been handed to
      the synthesiser: its recorder is started and [isListening] set while
      the reply is being spoken.
    - In [reply_after_remount] the chat request of a recording is pending
      when the mode is toggled to chat and back and a new recording is
      started: the handler of the unmounted component speaks the reply
      while the mounted one is listening.
    In none of the three is [cancel] ever called. *)
Theorem speech_during_recording :
  (let p := play Scenario.double_grant Scenario.voice_page in
   synth (screen p) = {| spoken := Some Scenario.spoken_reply; queue := [] |}
   /\ count is_recorder_start (calls (screen p)) = 2
   /\ count is_recorder_stop (calls (screen p)) = 1
   /\ isListening (state (screen p)) = false
   /\ count is_cancel (calls (screen p)) = 0)
  /\ (let p := play Scenario.late_grant Scenario.voice_page in
      isListening (state (screen p)) = true
      /\ synth (screen p)
         = {| spoken := Some Scenario.spoken_reply; queue := [] |}
      /\ count is_recorder_start (calls (screen p)) = 2
      /\ count is_recorder_stop (calls (screen p)) = 1
      /\ count is_cancel (calls (screen p)) = 0)
  /\ (let p := play Scenario.reply_after_remount Scenario.voice_page in
      isListening (state (screen p)) = true
      /\ synth (screen p)
         = {| spoken := Some Scenario.spoken_reply; queue := [] |}
      /\ count is_recorder_start (calls (screen p)) = 2
      /\ count is_recorder_stop (calls (screen p)) = 1
      /\ count is_cancel (calls (screen p)) = 0).
Proof. vm_compute. repeat split; reflexivity. Qed.

End Schedule.

(* ================================================================== *)
(** ** Session ids under every interleaving *)
(* ================================================================== *)

Section Interleavings.
Import JS Web Observe VoiceMode VoiceTasks Provenance.
Local Open Scope string_scope.
Local Open Scope list_scope.

Lemma known_more (ids more : list jsval) (v : jsval) :
  known ids v -> known (ids ++ more) v.
Proof.
  intros [H | H]; [ left; exact H | right; apply in_or_app; left; exact H ].
Qed.

Lemma world_known_more (ids more : list jsval) (w : World) :
  world_known ids w -> world_known (ids ++ more) w.
Proof.
  intros [Hs Hr]. split.
  - apply known_more. exact Hs.
  - intros rec H. apply known_more. exact (Hr rec H).
Qed.

Lemma task_known_more (ids more : list jsval) (t : nat * Task) :
  task_known ids t -> task_known (ids ++ more) t.
Proof.
  unfold task_known. destruct (snd t); try apply known_more. exact (fun H => H).
Qed.

Lemma Forall_replace (P : World -> Prop) (g : nat) (x : World)
    (l : list World) :
  P x -> Forall P l -> Forall P (replace g x l).
Proof.
  intros Hx Hl. revert g.
  induction Hl as [ | y r Hy Hr IH ]; intros g;
    destruct g as [ | g' ]; simpl; try constructor; auto.
Qed.

Lemma take_Forall (P : nat * Task -> Prop) (k : nat)
    (l rest : list (nat * Task)) (t : nat * Task) :
  take k l = Some (t, rest) -> Forall P l -> P t /\ Forall P rest.
Proof.
  revert k rest. induction l as [ | x l IH ]; intros k rest H Hl.
  - destruct k; discriminate H.
  - inversion Hl as [ | ? ? Hx Hl' ]; subst.
    destruct k as [ | k' ]; simpl in H.
    + inversion H; subst. split; assumption.
    + destruct (take k' l) as [[y r'] | ] eqn:E; [ | discriminate H ].
      inversion H; subst.
      destruct (IH k' r' E Hl') as [Ht Hr].
      split; [ exact Ht | constructor; assumption ].
Qed.


Lemma no_chat_forms (ids : list jsval) (new : list Call) :
  bodies_to chat_url new = [] -> chat_forms ids new.
Proof.
  intros H body Hin. exfalso.
  assert (In body (bodies_to chat_url new)) as Hb.
  { unfold bodies_to. apply in_flat_map. exists (Fetch chat_url body).
    split; [ exact Hin | ]. rewrite String.eqb_refl. left. reflexivity. }
  rewrite H in Hb. exact Hb.
Qed.


(** Settle a statement [keeps] of a part that sends no chat request. *)
Ltac keeps_quiet :=
  intros [[l p t r s] ref chunks syn cs] [Hs Hr];
  unfold world_known in *; cbn in Hs, Hr;
  eval_parts; decide_parts;
  (split; [ cbn; split; [ try assumption | try exact Hr ]
          | split; [ eexists; split;
                     [ rewrite <- ?app_assoc; cbn [app]; try reflexivity;
                       symmetry; apply app_nil_r
                     | apply no_chat_forms; reflexivity ]
                   | ] ]).


Lemma keeps_startListening_begin (ids : list jsval) :
  keeps ids ids (known ids) startListening_begin.
Proof.
  keeps_quiet.
  all: intros a H; inversion H; subst; exact Hs.
Qed.

Lemma keeps_startListening_resume (ids : list jsval) (sid : jsval)
    (mic : Error + unit) :
  known ids sid ->
  keeps ids ids (fun _ => True) (startListening_resume sid mic).
Proof.
  intros Hsid. keeps_quiet.
  all: try (intros; exact I).
  all: try (intros rec H; inversion H; subst; exact Hsid).
Qed.

Lemma keeps_stopListening_now (ids : list jsval) :
  keeps ids ids
        (fun r => match r with
                  | Some rec => known ids (onstop_sessionId rec)
                  | None => True
                  end)
        stopListening_now.
Proof.
  keeps_quiet.
  all: intros a H; inversion H; subst; try exact I.
  all: apply Hr; reflexivity.
Qed.

Lemma keeps_onstop_begin (ids : list jsval) (d : Data) :
  keeps ids ids (fun _ => True) (ondataavailable d ;; onstop_begin)%handler.
Proof.
  keeps_quiet.
  all: intros; exact I.
Qed.

Lemma keeps_onstop_end (ids : list jsval) :
  keeps ids ids (fun _ => True) onstop_end.
Proof.
  keeps_quiet.
  all: intros; exact I.
Qed.


Lemma keeps_handleTranscription_resume (ids : list jsval) (sid : jsval)
    (tr : FetchResult) :
  known ids sid ->
  keeps ids ids (fun _ => True) (handleTranscription_resume sid tr).
Proof.
  intros Hsid [[l p t r s] ref chunks syn cs] [Hs Hr].
  unfold world_known in *. cbn in Hs, Hr.
  eval_parts. decide_parts.
  all: (split; [ cbn; split; [ try assumption | try exact Hr ] | ]).
  all: (split; [ | intros; exact I ]).
  all: eexists; (split; [ rewrite <- ?app_assoc; cbn [app]; reflexivity | ]).
  all: try (apply no_chat_forms; reflexivity).
  all: intros body Hin; pick_voice_call Hin.
  all: (split; [ eexists; reflexivity | ]).
  all: exists sid; unfold session_id_fields;
    match goal with E : truthy _ = _ |- _ => rewrite E end;
    (split; [ exact Hsid | reflexivity ]).
Qed.

Lemma supplied_one (res : FetchResult) :
  supplied_ids [res]
  = match reply res with
    | Some data => [field data "session_id"]
    | None => []
    end.
Proof. unfold supplied_ids. cbn. apply app_nil_r. Qed.

Lemma keeps_handleChat_resume (ids : list jsval) (res : FetchResult) :
  keeps ids (ids ++ supplied_ids [res]) (fun _ => True)
        (handleChat_resume res ;; onstop_end)%handler.
Proof.
  intros [[l p t r s] ref chunks syn cs] Hw.
  apply (world_known_more (supplied_ids [res])) in Hw.
  rewrite supplied_one in *. unfold reply, field in *.
  destruct Hw as [Hs Hr]. cbn in Hs, Hr.
  unfold world_known.
  eval_parts. decide_parts.
  all: (split; [ cbn; split; [ try assumption | try exact Hr ] | ]).
  all: try (split; [ | intros; exact I ];
            eexists; split;
            [ rewrite <- ?app_assoc; cbn [app]; reflexivity
            | apply no_chat_forms; reflexivity ]).
  all: right; apply in_or_app; right.
  all: repeat match goal with
              | E : negb _ = false |- _ => apply negb_false_true in E
              end.
  all: repeat match goal with
              | E : ok _ = _ |- _ => rewrite E
              | E : json _ = _ |- _ => rewrite E
              end.
  all: match goal with
       | E : prop ?d "session_id" = inr _ |- _ =>
           destruct d; simpl in *; try discriminate;
           inversion E; subst; left; reflexivity
       end.
Qed.



Lemma keeps_same (A : Type) (ids : list jsval) (post : A -> Prop)
    (m : M World A) :
  keeps ids ids post m -> keeps ids (ids ++ []) post m.
Proof. rewrite app_nil_r. exact (fun H => H). Qed.

Lemma on_instance_keeps (A : Type) (ids more : list jsval)
    (post : A -> Prop) (m : M World A) (g : nat) (p : Page) :
  keeps ids (ids ++ more) post m ->
  page_known ids p ->
  page_known (ids ++ more) (fst (on_instance g m p))
  /\ (exists new,
        calls (screen (fst (on_instance g m p))) = calls (screen p) ++ new
        /\ chat_forms ids new)
  /\ tasks (fst (on_instance g m p)) = tasks p
  /\ forall a, snd (on_instance g m p) = inr a -> post a.
Proof.
  intros Hm [Hw [Hu Ht]]. destruct p as [w u ts]. cbn in Hw, Hu, Ht.
  unfold on_instance. cbn [screen unmounted tasks].
  destruct (nth_error u g) as [old | ] eqn:E.
  - assert (world_known ids (platform_of w old)) as Hold.
    { apply nth_error_In in E.
      exact (proj1 (Forall_forall _ _) Hu old E). }
    destruct (Hm _ Hold) as [Hk [[new [Hc Hf]] Hp]].
    destruct (m (platform_of w old)) as [w' r]. cbn in *.
    split; [ | split; [ | split ] ].
    + split; [ | split ]; cbn.
      * exact (world_known_more more Hw).
      * apply Forall_replace; [ exact Hk | ].
        eapply Forall_impl; [ | exact Hu ].
        intros x. apply world_known_more.
      * eapply Forall_impl; [ | exact Ht ].
        intros x. apply task_known_more.
    + exists new. split; assumption.
    + reflexivity.
    + exact Hp.
  - destruct (Hm _ Hw) as [Hk [[new [Hc Hf]] Hp]].
    destruct (m w) as [w' r]. cbn in *.
    split; [ | split; [ | split ] ].
    + split; [ | split ]; cbn.
      * exact Hk.
      * eapply Forall_impl; [ | exact Hu ].
        intros x. apply world_known_more.
      * eapply Forall_impl; [ | exact Ht ].
        intros x. apply task_known_more.
    + exists new. split; assumption.
    + reflexivity.
    + exact Hp.
Qed.

Lemma on_screen_keeps (A : Type) (ids more : list jsval)
    (post : A -> Prop) (m : M World A) (p : Page) :
  keeps ids (ids ++ more) post m ->
  page_known ids p ->
  page_known (ids ++ more) (fst (on_screen m p))
  /\ (exists new,
        calls (screen (fst (on_screen m p))) = calls (screen p) ++ new
        /\ chat_forms ids new)
  /\ tasks (fst (on_screen m p)) = tasks p
  /\ forall a, snd (on_screen m p) = inr a -> post a.
Proof.
  intros Hm [Hw [Hu Ht]]. destruct p as [w u ts]. cbn in Hw, Hu, Ht.
  unfold on_screen. cbn [screen unmounted tasks].
  destruct (Hm _ Hw) as [Hk [[new [Hc Hf]] Hp]].
  destruct (m w) as [w' r]. cbn in *.
  split; [ | split; [ | split ] ].
  - split; [ | split ]; cbn.
    + exact Hk.
    + eapply Forall_impl; [ | exact Hu ].
      intros x. apply world_known_more.
    + eapply Forall_impl; [ | exact Ht ].
      intros x. apply task_known_more.
  - exists new. split; assumption.
  - reflexivity.
  - exact Hp.
Qed.

Lemma push_known (ids : list jsval) (t : nat * Task) (p : Page) :
  task_known ids t -> page_known ids p -> page_known ids (push t p).
Proof.
  intros Ht [Hw [Hu Hts]]. split; [ exact Hw | split; [ exact Hu | ] ].
  unfold push. cbn. apply Forall_app. split; [ exact Hts | ].
  constructor; [ exact Ht | constructor ].
Qed.

Lemma resume_known (ids : list jsval) (k : nat) (p p' : Page)
    (t : nat * Task) :
  resume k p = Some (t, p') ->
  page_known ids p -> task_known ids t /\ page_known ids p'.
Proof.
  unfold resume. intros H [Hw [Hu Hts]].
  destruct (take k (tasks p)) as [[x rest] | ] eqn:E; [ | discriminate H ].
  inversion H; subst.
  destruct (take_Forall _ E Hts) as [Hx Hrest].
  split; [ exact Hx | ].
  split; [ exact Hw | split; [ exact Hu | exact Hrest ] ].
Qed.

Lemma resume_screen (k : nat) (p p' : Page) (t : nat * Task) :
  resume k p = Some (t, p') -> screen p' = screen p.
Proof.
  unfold resume. intros H.
  destruct (take k (tasks p)) as [[x rest] | ]; [ | discriminate H ].
  inversion H; subst. reflexivity.
Qed.

Lemma unchanged (ids : list jsval) (p : Page) :
  page_known ids p ->
  page_known (ids ++ []) p
  /\ exists new,
       calls (screen p) = calls (screen p) ++ new /\ chat_forms ids new.
Proof.
  intros H. rewrite app_nil_r. split; [ exact H | ].
  exists []. split; [ symmetry; apply app_nil_r | intros body [] ].
Qed.



Lemma chat_forms_app (ids : list jsval) (a b : list Call) :
  chat_forms ids a -> chat_forms ids b -> chat_forms ids (a ++ b).
Proof.
  intros Ha Hb body Hin. apply in_app_or in Hin.
  destruct Hin as [H | H]; [ exact (Ha body H) | exact (Hb body H) ].
Qed.

Lemma fire_known (ids : list jsval) (p : Page) (e : Event) :
  page_known ids p ->
  page_known (ids ++ supplied_ids (delivered p e)) (fire p e)
  /\ exists new,
       calls (screen (fire p e)) = calls (screen p) ++ new
       /\ chat_forms ids new.
Proof.
  intros Hp. destruct e as [ | k mic | k d | k tr | k ch | | ];
    cbn [delivered fire].
  - (* the button *)
    cbn [supplied_ids flat_map].
    destruct (isProcessing (state (screen p))); [ exact (@unchanged ids p Hp) | ].
    destruct (isListening (state (screen p))).
    + destruct (@on_screen_keeps _ ids [] _ _ p
                  (@keeps_same _ _ _ _ (@keeps_stopListening_now ids)) Hp)
        as [Hk [Hc [_ Hpost]]].
      destruct (on_screen stopListening_now p) as [p' [err | [rec | ]]];
        cbn [fst snd] in *; (split; [ | exact Hc ]); try exact Hk.
      apply push_known; [ | exact Hk ].
      unfold task_known. cbn. rewrite app_nil_r.
      exact (Hpost (Some rec) eq_refl).
    + destruct (@on_screen_keeps _ ids [] _ _ p
                  (@keeps_same _ _ _ _ (@keeps_startListening_begin ids)) Hp)
        as [Hk [Hc [_ Hpost]]].
      destruct (on_screen startListening_begin p) as [p' [err | sid]];
        cbn [fst snd] in *; (split; [ | exact Hc ]); try exact Hk.
      apply push_known; [ | exact Hk ].
      unfold task_known. cbn. rewrite app_nil_r.
      exact (Hpost sid eq_refl).
  - (* the microphone *)
    cbn [supplied_ids flat_map].
    destruct (resume k p) as [[[g t] p'] | ] eqn:E;
      [ | exact (@unchanged ids p Hp) ].
    destruct t as [sid | rec | sid | ]; try exact (@unchanged ids p Hp).
    destruct (@resume_known ids k p p' _ E Hp) as [Ht Hp'].
    rewrite <- (@resume_screen k p p' _ E).
    destruct (@on_instance_keeps _ ids [] _ _ g p'
                  (@keeps_same _ _ _ _
                     (@keeps_startListening_resume ids sid mic Ht)) Hp')
      as [Hk [Hc _]].
    split; [ exact Hk | exact Hc ].
  - (* the recorder *)
    cbn [supplied_ids flat_map].
    destruct (resume k p) as [[[g t] p'] | ] eqn:E;
      [ | exact (@unchanged ids p Hp) ].
    destruct t as [sid | rec | sid | ]; try exact (@unchanged ids p Hp).
    destruct (@resume_known ids k p p' _ E Hp) as [Ht Hp'].
    rewrite <- (@resume_screen k p p' _ E).
    destruct (@on_instance_keeps _ ids [] _ _ g p'
                  (@keeps_same _ _ _ _ (@keeps_onstop_begin ids d)) Hp')
      as [Hk [Hc _]].
    split; [ | exact Hc ].
    apply push_known; [ | exact Hk ].
    unfold task_known in *. cbn in *. rewrite app_nil_r. exact Ht.
  - (* the transcription *)
    cbn [supplied_ids flat_map].
    destruct (resume k p) as [[[g t] p'] | ] eqn:E;
      [ | exact (@unchanged ids p Hp) ].
    destruct t as [sid | rec | sid | ]; try exact (@unchanged ids p Hp).
    destruct (@resume_known ids k p p' _ E Hp) as [Ht Hp'].
    rewrite <- (@resume_screen k p p' _ E).
    destruct (@on_instance_keeps _ ids [] _ _ g p'
                  (@keeps_same _ _ _ _
                     (@keeps_handleTranscription_resume ids sid tr Ht))
                  Hp')
      as [Hk [[new [Hc Hf]] _]].
    destruct (on_instance g (handleTranscription_resume sid tr) p')
      as [p'' r]. cbn [fst snd] in *.
    assert (page_known (ids ++ []) (fst (on_instance g onstop_end p''))
            /\ exists new',
                 calls (screen (fst (on_instance g onstop_end p'')))
                 = calls (screen p') ++ new'
                 /\ chat_forms ids new') as Hend.
    { rewrite app_nil_r in Hk.
      destruct (@on_instance_keeps _ ids [] _ _ g p''
                    (@keeps_same _ _ _ _ (@keeps_onstop_end ids)) Hk)
        as [Hk' [[new' [Hc' Hf']] _]].
      split; [ exact Hk' | ].
      exists (new ++ new'). rewrite Hc', Hc, app_assoc.
      split; [ reflexivity | apply chat_forms_app; assumption ]. }
    destruct r as [err | [ | ]]; try exact Hend.
    split; [ | exists new; split; assumption ].
    apply push_known; [ exact I | exact Hk ].
  - (* the chat *)
    destruct (resume k p) as [[[g t] p'] | ] eqn:E;
      [ | exact (@unchanged ids p Hp) ].
    destruct t as [sid | rec | sid | ]; try exact (@unchanged ids p Hp).
    destruct (@resume_known ids k p p' _ E Hp) as [Ht Hp'].
    rewrite <- (@resume_screen k p p' _ E).
    destruct (@on_instance_keeps _ ids (supplied_ids [ch]) _ _ g p'
                  (@keeps_handleChat_resume ids ch) Hp')
      as [Hk [Hc _]].
    split; [ exact Hk | exact Hc ].
  - (* the synthesiser *)
    cbn [supplied_ids flat_map]. rewrite app_nil_r.
    destruct Hp as [Hw [Hu Ht]].
    split.
    + split; [ | split; assumption ].
      cbn. unfold speech_end.
      destruct (queue (synth (screen p))); exact Hw.
    + exists []. split; [ | intros body [] ].
      cbn. unfold speech_end.
      destruct (queue (synth (screen p))); symmetry; apply app_nil_r.
  - (* the mode toggle *)
    cbn [supplied_ids flat_map]. rewrite app_nil_r.
    destruct Hp as [Hw [Hu Ht]].
    split.
    + split; [ | split ]; cbn.
      * split; [ left; reflexivity | intros rec H; discriminate H ].
      * apply Forall_app. split; [ exact Hu | ].
        constructor; [ exact Hw | constructor ].
      * exact Ht.
    + exists []. split; [ symmetry; apply app_nil_r | intros body [] ].
Qed.

Lemma supplied_app (a b : list FetchResult) :
  supplied_ids (a ++ b) = supplied_ids a ++ supplied_ids b.
Proof. unfold supplied_ids. apply flat_map_app. Qed.

Lemma play_known (events : list Event) (ids : list jsval) (p : Page) :
  page_known ids p ->
  page_known (ids ++ supplied_ids (deliveries events p)) (play events p).
Proof.
  revert ids p. induction events as [ | e r IH ]; intros ids p Hp.
  - cbn. rewrite app_nil_r. exact Hp.
  - cbn [deliveries]. rewrite supplied_app, app_assoc.
    apply (IH _ (fire p e)). exact (proj1 (@fire_known ids p e Hp)).
Qed.

Lemma fresh_known : page_known [] Scenario.voice_page.
Proof.
  split; [ | split; constructor ].
  split; [ left; reflexivity | intros rec H; discriminate H ].
Qed.

(** X23. Whatever the interleaving of presses of the button, settling
    promises, events of stopped recorders, ends of utterances and remounts
    of the voice screen: every chat request holds one [message] field, and
    the session id it is made with is [null] or the [session_id] field of
    a successful chat reply that was delivered to a handler before; so a
    [session_id] field is never sent unless an earlier successful reply
    supplied its value. *)
Theorem session_id_sent_was_supplied (events : list Event) (e : Event)
    (body : FormData) :
  In (Fetch chat_url body)
     (issued (calls (screen (play events Scenario.voice_page)))
             (calls (screen (fire (play events Scenario.voice_page) e)))) ->
  (exists message, field_values "message" body = [FText message])
  /\ exists sid,
       (sid = JNull
        \/ In sid (supplied_ids (deliveries events Scenario.voice_page)))
       /\ field_values "session_id" body = session_id_fields sid.
Proof.
  intros Hin.
  pose proof (@play_known events [] _ fresh_known) as Hp. cbn [app] in Hp.
  destruct (@fire_known _ _ e Hp) as [_ [new [Hc Hf]]].
  rewrite (@issued_eq _ _ _ Hc) in Hin.
  exact (Hf body Hin).
Qed.

Lemma session_id_sent_was_supplied_witness :
  In (Fetch chat_url Scenario.form_with_id)
     (issued
        (calls (screen (play Scenario.second_talk_stopped
                             Scenario.voice_page)))
        (calls (screen (fire (play Scenario.second_talk_stopped
                                   Scenario.voice_page)
                             (TranscriptionSettles 0 Scenario.heard)))))
  /\ supplied_ids (deliveries Scenario.second_talk_stopped
                              Scenario.voice_page)
     = [Scenario.str "s1"]
  /\ exists sid,
       (sid = JNull
        \/ In sid (supplied_ids (deliveries Scenario.second_talk_stopped
                                            Scenario.voice_page)))
       /\ field_values "session_id" Scenario.form_with_id
          = session_id_fields sid.
Proof.
  assert (In (Fetch chat_url Scenario.form_with_id)
             (issued
                (calls (screen (play Scenario.second_talk_stopped
                                     Scenario.voice_page)))
                (calls (screen (fire (play Scenario.second_talk_stopped
                                           Scenario.voice_page)
                                     (TranscriptionSettles
                                        0 Scenario.heard))))))
    as Hin.
  { vm_compute. auto 10. }
  split; [ exact Hin | split; [ reflexivity | ] ].
  exact (proj2 (@session_id_sent_was_supplied
                  Scenario.second_talk_stopped
                  (TranscriptionSettles 0 Scenario.heard)
                  Scenario.form_with_id Hin)).
Defined.

(** X24. A recording is sent with the session id of the render that
    started it.  In [late_grant] the first press of the button is made
    while no session id is stored, and its request for the microphone is
    granted only after another interaction has stored the session id
    ["s1"]; when that recording is stopped and transcribed, its chat
    request holds no [session_id] field, although the reply delivered
    before supplied one and the screen stores it. *)
Theorem closure_keeps_session_id_of_its_render :
  deliveries Scenario.late_grant Scenario.voice_page
  = [Scenario.reply_with_id]
  /\ supplied_ids [Scenario.reply_with_id] = [Scenario.str "s1"]
  /\ sessionId (state (screen (play Scenario.late_grant
                                    Scenario.voice_page)))
     = Scenario.str "s1"
  /\ sessionId (state (screen (play Scenario.late_grant_stopped
                                    Scenario.voice_page)))
     = Scenario.str "s1"
  /\ map (has_field "session_id")
         (bodies_to chat_url
            (issued
               (calls (screen (play Scenario.late_grant
                                    Scenario.voice_page)))
               (calls (screen (play Scenario.late_grant_stopped
                                    Scenario.voice_page)))))
     = [false].
Proof. vm_compute. repeat split; reflexivity. Qed.

End Interleavings.

(* ================================================================== *)
(** ** The chat panel *)
(* ================================================================== *)

Ltac pick_panel_call H :=
  simpl in H;
  repeat (destruct H as [H | H];
          [ try discriminate H;
            try (unfold ChatInterface.transcribe_url,
                        ChatInterface.chat_url in H;
                 discriminate H);
            try (inversion H; subst; clear H)
          | ]);
  try contradiction.

(** Run the handlers of the panel as far as their decisions allow. *)
Ltac eval_panel :=
  cbv beta iota zeta delta
    [ ChatInterface.micButton ChatInterface.stopVoiceRecording
      ChatInterface.startVoiceRecording ChatInterface.onstop
      ChatInterface.ondataavailable ChatInterface.handleSendMessage
      ChatInterface.handleFileUpload ChatInterface.createNewSession
      ChatInterface.selectSession ChatInterface.addMessage
      ChatInterface.Date_now ChatInterface.createObjectURL
      ChatInterface.toast ChatInterface.call ChatInterface.setSessions
      ChatInterface.setActiveSession ChatInterface.setInputMessage
      ChatInterface.setIsRecording ChatInterface.set_mediaRecorderRef
      ChatInterface.handler ChatInterface.step
      Web.when Web.exec Web.bind Web.try_catch Web.await Web.ret Web.throw
      Web.modify Web.read fst snd
      ChatInterface.sessions ChatInterface.activeSession
      ChatInterface.inputMessage ChatInterface.isRecording
      ChatInterface.mediaRecorderRef ChatInterface.calls ChatInterface.now
      ChatInterface.clock_reads ChatInterface.object_url
      ChatInterface.urls_made ChatInterface.onstop_activeSession
      ChatInterface.chunks negb ].

Ltac decide_panel :=
  repeat match goal with
         | |- context [match ?x with _ => _ end] =>
             lazymatch x with
             | context [match _ with _ => _ end] => fail
             | _ => destruct x eqn:?; eval_panel
             end
         end.

Section PanelProofs.
Import JS Web Observe ChatInterface.
Local Open Scope string_scope.
Local Open Scope list_scope.

Lemma str_eqb_eq (a b : jsstring) : str_eqb a b = true <-> a = b.
Proof.
  revert b. induction a as [ | x a IH ]; intros [ | y b ]; simpl;
    try (split; (reflexivity || discriminate)).
  rewrite andb_true_iff, N.eqb_eq, IH.
  split; [ intros [-> ->]; reflexivity | intros H; inversion H; auto ].
Qed.

Lemma append_message_nth (a : jsstring) (m : Message.t)
    (ss : list Session.t) (i : nat) (s : Session.t) :
  nth_error ss i = Some s ->
  exists s',
    nth_error (append_message a m ss) i = Some s'
    /\ Session.id s' = Session.id s
    /\ Session.name s' = Session.name s
    /\ Session.createdAt s' = Session.createdAt s
    /\ Session.messages s' =
         Session.messages s
         ++ (if str_eqb (Session.id s) a then [m] else []).
Proof.
  intros H. unfold append_message.
  eexists. split; [ apply map_nth_error; exact H | ].
  destruct (str_eqb (Session.id s) a); simpl;
    rewrite ?app_nil_r; repeat split; reflexivity.
Qed.

Lemma apply_ops_nth (ops : list Op) :
  forall (ss : list Session.t) (i : nat) (s : Session.t),
  nth_error ss i = Some s ->
  exists s',
    nth_error (apply_ops ops ss) i = Some s'
    /\ Session.id s' = Session.id s
    /\ Session.name s' = Session.name s
    /\ Session.createdAt s' = Session.createdAt s
    /\ Session.messages s' =
         Session.messages s ++ added_to (Session.id s) ops.
Proof.
  induction ops as [ | o r IH ]; intros ss i s H; simpl.
  - exists s. rewrite app_nil_r. repeat split; assumption.
  - destruct o as [a m | n]; simpl.
    + destruct (@append_message_nth a m ss i s H)
        as [s1 [H1 [Hid [Hname [Hat Hm]]]]].
      destruct (IH _ _ _ H1) as [s2 [H2 [Hid2 [Hname2 [Hat2 Hm2]]]]].
      exists s2. split; [ exact H2 | ].
      rewrite Hid2, Hname2, Hat2, Hm2, Hm, Hid, Hname, Hat.
      repeat split.
      destruct (str_eqb (Session.id s) a); rewrite <- app_assoc; reflexivity.
    + apply IH. rewrite nth_error_app1; [ exact H | ].
      apply nth_error_Some. congruence.
Qed.

Lemma one_receiver (a : jsstring) (ss : list Session.t) :
  NoDup (map Session.id ss) ->
  In a (map Session.id ss) ->
  List.length (filter (fun s => str_eqb (Session.id s) a) ss) = 1.
Proof.
  induction ss as [ | s r IH ]; simpl; intros Hnd Hin; [ contradiction | ].
  inversion Hnd as [ | x l Hnotin Hnd' ]; subst.
  destruct (str_eqb (Session.id s) a) eqn:E.
  - apply str_eqb_eq in E. subst a. simpl. f_equal.
    assert (filter (fun s0 => str_eqb (Session.id s0) (Session.id s)) r = [])
      as ->; [ | reflexivity ].
    clear IH Hnd Hnd' Hin.
    induction r as [ | t r IHr ]; simpl in *; [ reflexivity | ].
    destruct (str_eqb (Session.id t) (Session.id s)) eqn:E'.
    + apply str_eqb_eq in E'. exfalso. apply Hnotin. left. exact E'.
    + apply IHr. intros Hin. apply Hnotin. right. exact Hin.
  - destruct Hin as [Heq | Hin].
    + apply str_eqb_eq in Heq. congruence.
    + apply IH; assumption.
Qed.

Lemma apply_ops_app (o1 o2 : list Op) (ss : list Session.t) :
  apply_ops (o1 ++ o2) ss = apply_ops o2 (apply_ops o1 ss).
Proof. unfold apply_ops. apply fold_left_app. Qed.

Lemma ops_ret {A} (a : A) : acts_by_ops (ret a).
Proof. intros w. exists []. reflexivity. Qed.

Lemma ops_throw {A} (e : Error) : acts_by_ops (@throw World A e).
Proof. intros w. exists []. reflexivity. Qed.

Lemma ops_await {A} (r : Error + A) : acts_by_ops (await r).
Proof. intros w. exists []. reflexivity. Qed.

Lemma ops_read {A} (f : World -> A) : acts_by_ops (read f).
Proof. intros w. exists []. reflexivity. Qed.

Lemma ops_bind {A B} (m : M World A) (k : A -> M World B) :
  acts_by_ops m -> (forall a, acts_by_ops (k a)) -> acts_by_ops (bind m k).
Proof.
  intros Hm Hk w. unfold bind.
  destruct (Hm w) as [o1 H1]. destruct (m w) as [w1 [e | a]]; simpl in *.
  - exists o1. exact H1.
  - destruct (Hk a w1) as [o2 H2].
    exists (o1 ++ o2). rewrite apply_ops_app, <- H1. exact H2.
Qed.

Lemma ops_try_catch {A} (m : M World A) (h : Error -> M World A) :
  acts_by_ops m -> (forall e, acts_by_ops (h e)) ->
  acts_by_ops (try_catch m h).
Proof.
  intros Hm Hh w. unfold try_catch.
  destruct (Hm w) as [o1 H1]. destruct (m w) as [w1 [e | a]]; simpl in *.
  - destruct (Hh e w1) as [o2 H2].
    exists (o1 ++ o2). rewrite apply_ops_app, <- H1. exact H2.
  - exists o1. exact H1.
Qed.

Lemma ops_when (c : bool) (m : M World unit) :
  acts_by_ops m -> acts_by_ops (when c m).
Proof. intros H. destruct c; [ exact H | apply ops_ret ]. Qed.

Lemma ops_call (c : Call) : acts_by_ops (call c).
Proof. intros w. exists []. reflexivity. Qed.

Lemma ops_toast (t : string) (d : jsval) (v : string) :
  acts_by_ops (toast t d v).
Proof. apply ops_call. Qed.

Lemma ops_Date_now : acts_by_ops Date_now.
Proof. intros w. exists []. reflexivity. Qed.

Lemma ops_setActiveSession (i : jsstring) : acts_by_ops (setActiveSession i).
Proof. intros w. exists []. reflexivity. Qed.

Lemma ops_setInputMessage (v : jsstring) : acts_by_ops (setInputMessage v).
Proof. intros w. exists []. reflexivity. Qed.

Lemma ops_setIsRecording (b : bool) : acts_by_ops (setIsRecording b).
Proof. intros w. exists []. reflexivity. Qed.

Lemma ops_set_mediaRecorderRef (r : option MediaRecorder) :
  acts_by_ops (set_mediaRecorderRef r).
Proof. intros w. exists []. reflexivity. Qed.

Lemma ops_append_message (a : jsstring) (m : Message.t) :
  acts_by_ops (setSessions (append_message a m)).
Proof. intros w. exists [Add a m]. reflexivity. Qed.

Lemma ops_new_session (n : Session.t) :
  acts_by_ops (setSessions (fun prev => prev ++ [n])).
Proof. intros w. exists [Create n]. reflexivity. Qed.

Create HintDb ops discriminated.

#[local] Hint Resolve ops_ret ops_throw ops_await ops_read ops_when
  ops_call ops_toast ops_Date_now ops_setActiveSession ops_setInputMessage
  ops_setIsRecording ops_set_mediaRecorderRef ops_append_message
  ops_new_session : ops.

(** Walk through a handler, one statement at a time. *)
Ltac by_ops :=
  repeat first
    [ progress auto with ops
    | apply ops_bind
    | apply ops_try_catch
    | apply ops_when
    | match goal with |- forall _, _ => intro end
    | progress cbv zeta
    | match goal with
      | |- acts_by_ops (if ?b then _ else _) => destruct b
      | |- acts_by_ops (match ?x with _ => _ end) => destruct x
      end ].

Lemma ops_addMessage (a : jsstring) (c : jsval) (t : MessageType)
    (s : Sender) (u : option jsstring) :
  acts_by_ops (addMessage a c t s u).
Proof. unfold addMessage. by_ops. Qed.

Lemma ops_createObjectURL (o : Blob + File) :
  acts_by_ops (createObjectURL o).
Proof.
  unfold createObjectURL. apply ops_bind; [ apply ops_call | ].
  intros _ w. exists []. reflexivity.
Qed.

#[local] Hint Resolve ops_addMessage ops_createObjectURL : ops.

Lemma ops_onstop (rec : MediaRecorder) (trRes chatRes : FetchResult) :
  acts_by_ops (onstop rec trRes chatRes).
Proof. unfold onstop. by_ops. Qed.

#[local] Hint Resolve ops_onstop : ops.

Lemma ops_handler (i : Input) : acts_by_ops (handler i).
Proof.
  destruct i; unfold handler, handleSendMessage, handleFileUpload,
    micButton, stopVoiceRecording, startVoiceRecording, createNewSession,
    selectSession; by_ops.
Qed.

Lemma handler_ops (i : Input) (w : World) :
  exists ops, sessions (step w i) = apply_ops ops (sessions w).
Proof. exact (ops_handler i w). Qed.

Lemma run_ops (inputs : list Input) :
  forall w, exists ops, sessions (run inputs w) = apply_ops ops (sessions w).
Proof.
  induction inputs as [ | i r IH ]; intros w; simpl.
  - exists []. reflexivity.
  - destruct (handler_ops i w) as [o1 H1].
    destruct (IH (step w i)) as [o2 H2].
    exists (o1 ++ o2). rewrite apply_ops_app, <- H1. exact H2.
Qed.

(** What [addMessage] changes.  It appends the new message to the end of
    the list of every session whose id is the active id of the calling
    render,
    and leaves every other list, and the id, name, creation time and
    position of every session, as they were; the sessions that receive it
    are exactly one when the session ids are pairwise distinct and the
    active id is one of them.  Every operation of the panel changes the
    sessions only by such additions and by appending a new session; so
    after any sequence of operations the list of every session that
    existed before is its old list followed by the messages added for its
    id, in the order they were added. *)
Theorem messages_append_only :
  (forall (a : jsstring) (m : Message.t) (ss : list Session.t)
          (i : nat) (s : Session.t),
      nth_error ss i = Some s ->
      exists s',
        nth_error (append_message a m ss) i = Some s'
        /\ Session.id s' = Session.id s
        /\ Session.name s' = Session.name s
        /\ Session.createdAt s' = Session.createdAt s
        /\ Session.messages s' =
             Session.messages s
             ++ (if str_eqb (Session.id s) a then [m] else []))
  /\ (forall (a : jsstring) (m : Message.t) (ss : list Session.t),
        List.length (append_message a m ss) = List.length ss)
  /\ (forall (a : jsstring) (ss : list Session.t),
        NoDup (map Session.id ss) ->
        In a (map Session.id ss) ->
        List.length (filter (fun s => str_eqb (Session.id s) a) ss) = 1)
  /\ (forall (inputs : list Input) (w : World) (i : nat) (s : Session.t),
        nth_error (sessions w) i = Some s ->
        exists ops s',
          sessions (run inputs w) = apply_ops ops (sessions w)
          /\ nth_error (sessions (run inputs w)) i = Some s'
          /\ Session.id s' = Session.id s
          /\ Session.messages s' =
               Session.messages s ++ added_to (Session.id s) ops).
Proof.
  split; [ | split; [ | split ] ].
  - intros a m ss i s H. exact (@append_message_nth a m ss i s H).
  - intros a m ss. unfold append_message. apply length_map.
  - intros a ss Hnd Hin. exact (@one_receiver a ss Hnd Hin).
  - intros inputs w i s H.
    destruct (run_ops inputs w) as [ops Hops].
    destruct (@apply_ops_nth ops (sessions w) i s H)
      as [s' [Hs' [Hid [_ [_ Hm]]]]].
    exists ops, s'. rewrite Hops.
    split; [ reflexivity | ].
    split; [ exact Hs' | ].
    split; [ exact Hid | exact Hm ].
Qed.

Lemma messages_append_only_witness :
  (NoDup (map Session.id (sessions Scenario.panel))
   /\ In (u16 "1") (map Session.id (sessions Scenario.panel))
   /\ List.length (filter (fun s => str_eqb (Session.id s) (u16 "1"))
                          (sessions Scenario.panel)) = 1)
  /\ nth_error (sessions Scenario.panel) 0 = Some Scenario.first_session
  /\ exists ops s',
       sessions (run Scenario.one_message Scenario.panel)
       = apply_ops ops (sessions Scenario.panel)
       /\ nth_error (sessions (run Scenario.one_message Scenario.panel)) 0
          = Some s'
       /\ Session.id s' = Session.id Scenario.first_session
       /\ Session.messages s' =
            Session.messages Scenario.first_session
            ++ added_to (Session.id Scenario.first_session) ops.
Proof.
  assert (NoDup (map Session.id (sessions Scenario.panel))) as Hnd.
  { simpl. constructor; [ simpl; tauto | constructor ]. }
  assert (In (u16 "1") (map Session.id (sessions Scenario.panel))) as Hin.
  { simpl. left. reflexivity. }
  split; [ split; [ exact Hnd | split; [ exact Hin | ] ] | ].
  - exact (proj1 (proj2 (proj2 messages_append_only))
                 (u16 "1") (sessions Scenario.panel) Hnd Hin).
  - split; [ reflexivity | ].
    exact (proj2 (proj2 (proj2 messages_append_only))
                 Scenario.one_message Scenario.panel 0
                 Scenario.first_session eq_refl).
Defined.

(** C5. One added message is appended to the lists of two sessions.
    [createNewSession] takes the id of the new session from [Date.now()];
    two clicks on "New Chat" within one reading of the clock make two
    sessions with the same id, although the ids serve as the React keys of
    the session cards and [sessions.find] looks the current session up by
    id.  The message sent next is appended by [addMessage] to the lists of
    both sessions, which were empty. *)
Lemma one_message_two_sessions :
  map Session.id (sessions (run Scenario.twin_sessions Scenario.panel))
  = [ u16 "1"; u16 "1700000000000"; u16 "1700000000000" ]
  /\ map Scenario.contents
         (sessions (run Scenario.twin_sessions Scenario.panel))
     = [ [] ; [] ; [] ]
  /\ map Scenario.contents
         (sessions (run (Scenario.twin_sessions ++ Scenario.one_message)
                        Scenario.panel))
     = [ [] ; [Scenario.str "hi"] ; [Scenario.str "hi"] ].
Proof. vm_compute. repeat split; reflexivity. Qed.

(** C3, the path that notifies nobody.  The recording is transcribed, the
    chat request that follows is answered with status 500: the handler of
    the chat panel logs no toast at all (and adds no reply), whereas
    [handleSendMessage] answers the same reply with a toast. *)
Theorem panel_voice_chat_failure_is_silent :
  Scenario.contents_after
    (Scenario.record_and_stop Scenario.heard Scenario.server_error)
  = [ [Scenario.str "Voice message"; Scenario.str "hi"] ]
  /\ count_fetch chat_url
       (calls (run (Scenario.record_and_stop Scenario.heard
                                              Scenario.server_error)
                   Scenario.panel)) = 1
  /\ filter is_toast
       (calls (run (Scenario.record_and_stop Scenario.heard
                                              Scenario.server_error)
                   Scenario.panel)) = []
  /\ filter is_toast
       (calls (run [TypeText (u16 "hi"); Send Scenario.server_error]
                   Scenario.panel))
     = [ Toast "Error" (Scenario.str "boom") "destructive" ].
Proof. vm_compute. repeat split; reflexivity. Qed.

Lemma panel_chat_after_transcription (rec : MediaRecorder)
    (trRes chatRes : FetchResult) (w : World) :
  exists o rest,
    calls (exec (onstop rec trRes chatRes) w) =
      calls w
      ++ CreateObjectURL o
      :: Fetch transcribe_url [("file", FFile (voice_file rec))] :: rest
    /\ count_fetch transcribe_url rest = 0
    /\ forall body,
         In (Fetch chat_url body) rest ->
         exists res data t,
           trRes = inr res /\ ok res = true /\ json res = inr data
           /\ prop data "text" = inr t
           /\ field_values "message" body = [FText t].
Proof.
  unfold voice_file. eval_panel. decide_panel.
  all: (do 2 eexists; split; [ same_log | split; [ reflexivity | ] ]);
    intros body Hin; pick_panel_call Hin;
    do 3 eexists; repeat split; eauto.
Qed.

Lemma panel_transcript (rec : MediaRecorder) (trRes chatRes : FetchResult)
    (w : World) (data : jsval) :
  reply trRes = Some data ->
  let w' := exec (onstop rec trRes chatRes) w in
  let a := onstop_activeSession rec in
  if truthy (field data "text")
  then exists vm m rest,
         sessions w' = apply_ops (Add a vm :: Add a m :: rest) (sessions w)
         /\ Message.type vm = voice
         /\ Message.content m = field data "text"
         /\ Message.type m = text /\ Message.sender m = user
  else exists vm,
         sessions w' = apply_ops [Add a vm] (sessions w)
         /\ Message.type vm = voice
         /\ In (Toast "Error" (JStr (u16 "Transcription failed"))
                      "destructive")
               (issued (calls w) (calls w')).
Proof.
  intros Hreply w' a. subst w' a.
  destruct (@reply_inv trRes data "text" Hreply)
    as [res [-> [Hok [Hjson [_ Htext]]]]].
  destruct (truthy (field data "text")) eqn:Ht;
    eval_panel; rewrite Hjson, Hok, Htext; eval_panel;
    rewrite Ht; eval_panel.
  - decide_panel;
      first [ (do 2 eexists; exists []; repeat split; reflexivity)
            | (do 2 eexists; eexists [Add _ _]; repeat split; reflexivity) ].
  - eexists. repeat split.
    rewrite <- !app_assoc. rewrite issued_app. simpl. tauto.
Qed.

Lemma panel_one_upload (w : World) (mic' : Error + unit) (d0 data : Data)
    (t0 c0 trRes chatRes : FetchResult) :
  isRecording w = false ->
  exists new,
    calls (step (step w (MicButton (inr tt) d0 t0 c0))
                (MicButton mic' data trRes chatRes))
    = calls w ++ new
    /\ count_fetch transcribe_url new = 1.
Proof.
  intros Hrec.
  destruct w as [ss act inp recg ref cs nw reads url made].
  simpl in Hrec. subst recg.
  eval_panel. decide_panel.
  all: (eexists; split; [ same_log | reflexivity ]).
Qed.

(** C6 as stated fails in the chat panel: the transcription request is
    answered with status 200 and the text [""]; that text is not appended
    as a user message (the only message is the voice message itself) and
    the answer is reported as a failed transcription. *)
Lemma empty_transcript_not_appended :
  reply Scenario.silence = Some (Scenario.obj [("text", JStr [])])
  /\ Scenario.contents_after
       (Scenario.record_and_stop Scenario.silence Scenario.reply_with_id)
     = [ [Scenario.str "Voice message"] ]
  /\ filter is_toast
       (calls (run (Scenario.record_and_stop Scenario.silence
                                              Scenario.reply_with_id)
                   Scenario.panel))
     = [ Toast "Error" (Scenario.str "Transcription failed") "destructive" ].
Proof. vm_compute. repeat split; reflexivity. Qed.

End PanelProofs.

(* ================================================================== *)
(** ** Both components: recording, transcription, chat *)
(* ================================================================== *)

Section Interaction.
Import JS Web Observe.
Local Open Scope string_scope.
Local Open Scope list_scope.

(** C2. On the voice screen and in the chat panel alike, a chat request is
    issued only after the transcription request of the same recording, and
    only when that request was answered with a 2xx status and a JSON body
    with a readable [text] field; its [message] field is that [text] and
    nothing else.  So no chat request is issued when the transcription
    request is rejected or answered with another status. *)
Theorem chat_issued_after_transcription :
  (forall (sid : jsval) (blob : Blob) (trRes chatRes : FetchResult)
          (w : VoiceMode.World) (body : FormData),
      let w' := exec (VoiceMode.handleTranscription sid blob trRes chatRes)
                     w in
      In (Fetch VoiceMode.chat_url body)
         (issued (VoiceMode.calls w) (VoiceMode.calls w')) ->
      exists res data t rest,
        trRes = inr res /\ ok res = true /\ json res = inr data
        /\ prop data "text" = inr t
        /\ field_values "message" body = [FText t]
        /\ issued (VoiceMode.calls w) (VoiceMode.calls w')
           = Fetch VoiceMode.transcribe_url
                   [("file", FBlob blob "recording.webm")] :: rest
        /\ In (Fetch VoiceMode.chat_url body) rest)
  /\ (forall (rec : ChatInterface.MediaRecorder)
            (trRes chatRes : FetchResult) (w : ChatInterface.World)
            (body : FormData),
        let w' := exec (ChatInterface.onstop rec trRes chatRes) w in
        In (Fetch ChatInterface.chat_url body)
           (issued (ChatInterface.calls w) (ChatInterface.calls w')) ->
        exists res data t o rest,
          trRes = inr res /\ ok res = true /\ json res = inr data
          /\ prop data "text" = inr t
          /\ field_values "message" body = [FText t]
          /\ issued (ChatInterface.calls w) (ChatInterface.calls w')
             = CreateObjectURL o
               :: Fetch ChatInterface.transcribe_url
                        [("file", FFile (voice_file rec))] :: rest
          /\ In (Fetch ChatInterface.chat_url body) rest).
Proof.
  split.
  - intros sid blob trRes chatRes w body w' Hin. subst w'.
    destruct (voice_chat_after_transcription sid blob trRes chatRes w)
      as [rest [Hcalls [_ Hrest]]].
    rewrite (@issued_eq _ _ _ Hcalls) in *.
    destruct Hin as [Hin | Hin]; [ discriminate Hin | ].
    destruct (Hrest body Hin) as [res [data [t H]]].
    exists res, data, t, rest. intuition.
  - intros rec trRes chatRes w body w' Hin. subst w'.
    destruct (panel_chat_after_transcription rec trRes chatRes w)
      as [o [rest [Hcalls [_ Hrest]]]].
    rewrite (@issued_eq _ _ _ Hcalls) in *.
    destruct Hin as [Hin | [Hin | Hin]];
      [ discriminate Hin | discriminate Hin | ].
    destruct (Hrest body Hin) as [res [data [t H]]].
    exists res, data, t, o, rest. intuition.
Qed.

Lemma chat_issued_after_transcription_witness :
  (In (Fetch VoiceMode.chat_url Scenario.form_with_id)
      (issued (VoiceMode.calls VoiceMode.initial)
              (VoiceMode.calls
                 (exec (VoiceMode.handleTranscription
                          (Scenario.str "s1") Scenario.recording
                          Scenario.heard Scenario.reply_with_id)
                       VoiceMode.initial)))
   /\ exists res data t rest,
        Scenario.heard = inr res /\ ok res = true /\ json res = inr data
        /\ prop data "text" = inr t
        /\ field_values "message" Scenario.form_with_id = [FText t]
        /\ issued (VoiceMode.calls VoiceMode.initial)
                  (VoiceMode.calls
                     (exec (VoiceMode.handleTranscription
                              (Scenario.str "s1") Scenario.recording
                              Scenario.heard Scenario.reply_with_id)
                           VoiceMode.initial))
           = Fetch VoiceMode.transcribe_url
                   [("file", FBlob Scenario.recording "recording.webm")]
             :: rest
        /\ In (Fetch VoiceMode.chat_url Scenario.form_with_id) rest)
  /\ (In (Fetch ChatInterface.chat_url Scenario.panel_form)
         (issued (ChatInterface.calls Scenario.panel)
                 (ChatInterface.calls
                    (exec (ChatInterface.onstop
                             Scenario.panel_recorder
                             Scenario.heard Scenario.server_error)
                          Scenario.panel)))
      /\ exists res data t o rest,
           Scenario.heard = inr res /\ ok res = true /\ json res = inr data
           /\ prop data "text" = inr t
           /\ field_values "message" Scenario.panel_form = [FText t]
           /\ issued (ChatInterface.calls Scenario.panel)
                     (ChatInterface.calls
                        (exec (ChatInterface.onstop
                                 Scenario.panel_recorder
                                 Scenario.heard Scenario.server_error)
                              Scenario.panel))
              = CreateObjectURL o
                :: Fetch ChatInterface.transcribe_url
                         [("file",
                           FFile (voice_file Scenario.panel_recorder))]
                :: rest
           /\ In (Fetch ChatInterface.chat_url Scenario.panel_form) rest).
Proof.
  assert (In (Fetch VoiceMode.chat_url Scenario.form_with_id)
             (issued (VoiceMode.calls VoiceMode.initial)
                     (VoiceMode.calls
                        (exec (VoiceMode.handleTranscription
                                 (Scenario.str "s1") Scenario.recording
                                 Scenario.heard Scenario.reply_with_id)
                              VoiceMode.initial)))) as Hvoice.
  { vm_compute. auto 10. }
  assert (In (Fetch ChatInterface.chat_url Scenario.panel_form)
             (issued (ChatInterface.calls Scenario.panel)
                     (ChatInterface.calls
                        (exec (ChatInterface.onstop
                                 Scenario.panel_recorder
                                 Scenario.heard Scenario.server_error)
                              Scenario.panel)))) as Hpanel.
  { vm_compute. auto 10. }
  split; (split; [ eassumption | ]).
  - exact (proj1 chat_issued_after_transcription
                 (Scenario.str "s1") Scenario.recording
                 Scenario.heard Scenario.reply_with_id
                 VoiceMode.initial Scenario.form_with_id Hvoice).
  - exact (proj2 chat_issued_after_transcription
                 Scenario.panel_recorder
                 Scenario.heard Scenario.server_error
                 Scenario.panel Scenario.panel_form Hpanel).
Defined.

(** C4. One click on the microphone button of the chat panel that starts a
    recording (the microphone is granted) followed by the click that stops
    it issues exactly one request to the transcription endpoint, whatever
    the network answers; the same holds for one start and one stop of the
    voice screen. *)
Theorem one_upload_per_recording :
  (forall (w : ChatInterface.World) (mic' : Error + unit) (d0 data : Data)
          (t0 c0 trRes chatRes : FetchResult),
      ChatInterface.isRecording w = false ->
      count_fetch ChatInterface.transcribe_url
        (issued (ChatInterface.calls w)
           (ChatInterface.calls
              (ChatInterface.step
                 (ChatInterface.step
                    w (ChatInterface.MicButton (inr tt) d0 t0 c0))
                 (ChatInterface.MicButton mic' data trRes chatRes))))
      = 1)
  /\ (forall (w : VoiceMode.World) (a0 a : VoiceMode.Answers),
        VoiceMode.isListening (VoiceMode.state w) = false ->
        VoiceMode.isProcessing (VoiceMode.state w) = false ->
        VoiceMode.mic a0 = inr tt ->
        count_fetch VoiceMode.transcribe_url
          (issued (VoiceMode.calls w)
             (VoiceMode.calls
                (VoiceMode.step (VoiceMode.step w (VoiceMode.Click a0))
                                (VoiceMode.Click a))))
        = 1).
Proof.
  split.
  - intros w mic' d0 data t0 c0 trRes chatRes Hrec.
    destruct (@panel_one_upload w mic' d0 data t0 c0 trRes chatRes Hrec)
      as [new [Hcalls Hcount]].
    rewrite (@issued_eq _ _ _ Hcalls). exact Hcount.
  - intros w a0 a HL HP Hmic.
    destruct (@voice_one_upload w a0 a HL HP Hmic) as [new [Hcalls Hcount]].
    rewrite (@issued_eq _ _ _ Hcalls). exact Hcount.
Qed.

Lemma one_upload_per_recording_witness :
  (ChatInterface.isRecording Scenario.panel = false
   /\ count_fetch ChatInterface.transcribe_url
        (issued (ChatInterface.calls Scenario.panel)
           (ChatInterface.calls
              (ChatInterface.step
                 (ChatInterface.step
                    Scenario.panel
                    (ChatInterface.MicButton (inr tt) [] Scenario.offline
                                             Scenario.offline))
                 (ChatInterface.MicButton (inr tt) [1%N; 2%N]
                                          Scenario.offline
                                          Scenario.offline))))
      = 1)
  /\ (VoiceMode.isListening (VoiceMode.state VoiceMode.initial) = false
      /\ VoiceMode.isProcessing (VoiceMode.state VoiceMode.initial) = false
      /\ VoiceMode.mic (Scenario.talk Scenario.offline) = inr tt
      /\ count_fetch VoiceMode.transcribe_url
           (issued (VoiceMode.calls VoiceMode.initial)
              (VoiceMode.calls
                 (VoiceMode.step
                    (VoiceMode.step
                       VoiceMode.initial
                       (VoiceMode.Click (Scenario.talk Scenario.offline)))
                    (VoiceMode.Click (Scenario.talk Scenario.offline)))))
         = 1).
Proof.
  split.
  - split; [ reflexivity | ].
    exact (proj1 one_upload_per_recording
                 Scenario.panel (inr tt) [] [1%N; 2%N]
                 Scenario.offline Scenario.offline
                 Scenario.offline Scenario.offline eq_refl).
  - split; [ reflexivity | split; [ reflexivity | split; [ reflexivity | ] ] ].
    exact (proj2 one_upload_per_recording
                 VoiceMode.initial
                 (Scenario.talk Scenario.offline)
                 (Scenario.talk Scenario.offline)
                 eq_refl eq_refl eq_refl).
Defined.

(** C6 (amended). Each transcription request is a form with exactly one
    part, the recorded audio as a file under the name [file], and each
    recording leads to one such request.  When the request is answered
    with a 2xx status and a readable JSON body, the voice screen displays
    the [text] field of the body as the transcript; the chat panel appends
    that [text] as a user text message, right after the voice message,
    when it is truthy, and otherwise (empty or missing text) appends
    nothing and reports a failed transcription. *)
Theorem transcription_request_and_transcript :
  (forall (sid : jsval) (blob : Blob) (trRes chatRes : FetchResult)
          (w : VoiceMode.World),
      let w' := exec (VoiceMode.handleTranscription sid blob trRes chatRes)
                     w in
      (exists rest,
          issued (VoiceMode.calls w) (VoiceMode.calls w')
          = Fetch VoiceMode.transcribe_url
                  [("file", FBlob blob "recording.webm")] :: rest
          /\ count_fetch VoiceMode.transcribe_url rest = 0)
      /\ forall data,
           reply trRes = Some data ->
           VoiceMode.transcript (VoiceMode.state w') = field data "text")
  /\ (forall (rec : ChatInterface.MediaRecorder)
            (trRes chatRes : FetchResult) (w : ChatInterface.World),
        let w' := exec (ChatInterface.onstop rec trRes chatRes) w in
        let a := ChatInterface.onstop_activeSession rec in
        (exists o rest,
            issued (ChatInterface.calls w) (ChatInterface.calls w')
            = CreateObjectURL o
              :: Fetch ChatInterface.transcribe_url
                       [("file", FFile (voice_file rec))] :: rest
            /\ count_fetch ChatInterface.transcribe_url rest = 0)
        /\ forall data,
             reply trRes = Some data ->
             if truthy (field data "text")
             then exists vm m rest,
                    ChatInterface.sessions w'
                    = ChatInterface.apply_ops
                        (ChatInterface.Add a vm
                         :: ChatInterface.Add a m :: rest)
                        (ChatInterface.sessions w)
                    /\ ChatInterface.Message.type vm = ChatInterface.voice
                    /\ ChatInterface.Message.content m = field data "text"
                    /\ ChatInterface.Message.type m = ChatInterface.text
                    /\ ChatInterface.Message.sender m = ChatInterface.user
             else exists vm,
                    ChatInterface.sessions w'
                    = ChatInterface.apply_ops
                        [ChatInterface.Add a vm] (ChatInterface.sessions w)
                    /\ ChatInterface.Message.type vm = ChatInterface.voice
                    /\ In (Toast "Error"
                                 (JStr (u16 "Transcription failed"))
                                 "destructive")
                          (issued (ChatInterface.calls w)
                                  (ChatInterface.calls w'))).
Proof.
  split.
  - intros sid blob trRes chatRes w w'. subst w'. split.
    + destruct (voice_chat_after_transcription sid blob trRes chatRes w)
        as [rest [Hcalls [Hcount _]]].
      exists rest. rewrite (@issued_eq _ _ _ Hcalls).
      split; [ reflexivity | exact Hcount ].
    + intros data Hreply. apply voice_transcript. exact Hreply.
  - intros rec trRes chatRes w w' a. subst w' a. split.
    + destruct (panel_chat_after_transcription rec trRes chatRes w)
        as [o [rest [Hcalls [Hcount _]]]].
      exists o, rest. rewrite (@issued_eq _ _ _ Hcalls).
      split; [ reflexivity | exact Hcount ].
    + intros data Hreply.
      exact (@panel_transcript rec trRes chatRes w data Hreply).
Qed.

Lemma transcription_request_and_transcript_witness :
  reply Scenario.heard = Some Scenario.heard_body
  /\ VoiceMode.transcript
       (VoiceMode.state
          (exec (VoiceMode.handleTranscription
                   JNull Scenario.recording Scenario.heard Scenario.offline)
                VoiceMode.initial))
     = field Scenario.heard_body "text"
  /\ exists vm m rest,
       ChatInterface.sessions
         (exec (ChatInterface.onstop Scenario.panel_recorder
                                     Scenario.heard Scenario.offline)
               Scenario.panel)
       = ChatInterface.apply_ops
           (ChatInterface.Add (u16 "1") vm
            :: ChatInterface.Add (u16 "1") m :: rest)
           (ChatInterface.sessions Scenario.panel)
       /\ ChatInterface.Message.type vm = ChatInterface.voice
       /\ ChatInterface.Message.content m = Scenario.str "hi"
       /\ ChatInterface.Message.type m = ChatInterface.text
       /\ ChatInterface.Message.sender m = ChatInterface.user.
Proof.
  split; [ reflexivity | split ].
  - exact (proj2 (proj1 transcription_request_and_transcript
                        JNull Scenario.recording Scenario.heard
                        Scenario.offline VoiceMode.initial)
                 Scenario.heard_body eq_refl).
  - exact (proj2 (proj2 transcription_request_and_transcript
                        Scenario.panel_recorder Scenario.heard
                        Scenario.offline Scenario.panel)
                 Scenario.heard_body eq_refl).
Defined.

End Interaction.

(* ================================================================== *)
(** ** Failures and notifications *)
(* ================================================================== *)

(** A branch in which the request succeeded contradicts [reply _ = None]. *)
Ltac not_a_reply H :=
  exfalso; unfold Observe.reply in H;
  repeat match goal with
         | E : Web.ok _ = _ |- _ => rewrite E in H
         | E : Web.json _ = _ |- _ => rewrite E in H
         end;
  match type of H with
  | context [Observe.nullish ?d] =>
      destruct d; simpl in *; discriminate
  | _ => discriminate
  end.

Section Failures.
Import JS Web Observe.
Local Open Scope string_scope.
Local Open Scope list_scope.

(** X19. On the voice screen every failure is answered by a toast: a refused
    microphone, and a transcription or chat request that is rejected,
    answered with a status outside 2xx, or answered with a body that
    cannot be read; a failed transcription is followed by no chat
    request, and no request is issued twice. *)
Lemma voice_failures_notify :
  (forall (e : Error) (w : VoiceMode.World),
      existsb is_toast
        (issued (VoiceMode.calls w)
                (VoiceMode.calls (exec (VoiceMode.startListening (inl e)) w)))
      = true)
  /\ (forall (sid : jsval) (blob : Blob) (trRes chatRes : FetchResult)
            (w : VoiceMode.World),
        reply trRes = None ->
        exists toasted,
          issued (VoiceMode.calls w)
                 (VoiceMode.calls
                    (exec (VoiceMode.handleTranscription
                             sid blob trRes chatRes) w))
          = [ Fetch VoiceMode.transcribe_url
                    [("file", FBlob blob "recording.webm")]; toasted ]
          /\ is_toast toasted = true)
  /\ (forall (sid message : jsval) (chatRes : FetchResult)
            (w : VoiceMode.World),
        reply chatRes = None ->
        exists body toasted,
          issued (VoiceMode.calls w)
                 (VoiceMode.calls
                    (exec (VoiceMode.handleChat sid message chatRes) w))
          = [ Fetch VoiceMode.chat_url body; toasted ]
          /\ is_toast toasted = true).
Proof.
  split; [ | split ].
  - intros e w. eval_voice. decide_voice.
    all: rewrite <- ?app_assoc; rewrite issued_app; reflexivity.
  - intros sid blob trRes chatRes w H. eval_voice. decide_voice.
    all: try (rewrite <- ?app_assoc; rewrite issued_app;
              eexists; split; reflexivity).
    all: try match goal with
             | E : negb _ = false |- _ => apply negb_false_true in E
             end.
    all: not_a_reply H.
  - intros sid message chatRes w H. eval_voice. decide_voice.
    all: try (rewrite <- ?app_assoc; rewrite issued_app;
              do 2 eexists; split; reflexivity).
    all: try match goal with
             | E : negb _ = false |- _ => apply negb_false_true in E
             end.
    all: not_a_reply H.
Qed.

(** X20. In the chat panel a refused microphone, a failed text or image chat
    request and a failed transcription are answered by a toast; so is a
    chat request made for a transcript when it is rejected or its body
    cannot be parsed. *)
Lemma panel_failures_notify :
  (forall (e : Error) (w : ChatInterface.World),
      existsb is_toast
        (issued (ChatInterface.calls w)
                (ChatInterface.calls
                   (exec (ChatInterface.startVoiceRecording (inl e)) w)))
      = true)
  /\ (forall (chatRes : FetchResult) (w : ChatInterface.World),
        trim (ChatInterface.inputMessage w) <> [] ->
        reply chatRes = None ->
        existsb is_toast
          (issued (ChatInterface.calls w)
                  (ChatInterface.calls
                     (exec (ChatInterface.handleSendMessage chatRes) w)))
        = true)
  /\ (forall (file : File) (chatRes : FetchResult)
            (w : ChatInterface.World),
        reply chatRes = None ->
        existsb is_toast
          (issued (ChatInterface.calls w)
                  (ChatInterface.calls
                     (exec (ChatInterface.handleFileUpload (Some file)
                                                           chatRes) w)))
        = true)
  /\ (forall (rec : ChatInterface.MediaRecorder)
            (trRes chatRes : FetchResult) (w : ChatInterface.World),
        reply trRes = None ->
        existsb is_toast
          (issued (ChatInterface.calls w)
                  (ChatInterface.calls
                     (exec (ChatInterface.onstop rec trRes chatRes) w)))
        = true)
  /\ (forall (rec : ChatInterface.MediaRecorder) (trRes chatRes : FetchResult)
            (w : ChatInterface.World) (data : jsval),
        reply trRes = Some data ->
        truthy (field data "text") = true ->
        match chatRes with
        | inl _ => True
        | inr res => exists e, json res = inl e
        end ->
        existsb is_toast
          (issued (ChatInterface.calls w)
                  (ChatInterface.calls
                     (exec (ChatInterface.onstop rec trRes chatRes) w)))
        = true).
Proof.
  split; [ | split; [ | split; [ | split ] ] ].
  - intros e w. eval_panel.
    rewrite <- ?app_assoc; rewrite issued_app; reflexivity.
  - intros chatRes w Hinput H.
    destruct w as [ss act inp recg ref cs nw reads url made].
    simpl in Hinput. eval_panel.
    destruct (trim inp) eqn:Ht; [ congruence | ].
    cbn [truthy]. eval_panel. decide_panel.
    all: try (rewrite <- ?app_assoc; rewrite issued_app; reflexivity).
    all: not_a_reply H.
  - intros file chatRes w H. eval_panel. decide_panel.
    all: try (rewrite <- ?app_assoc; rewrite issued_app; reflexivity).
    all: not_a_reply H.
  - intros rec trRes chatRes w H. eval_panel. decide_panel.
    all: try (rewrite <- ?app_assoc; rewrite issued_app; reflexivity).
    all: not_a_reply H.
  - intros rec trRes chatRes w data Hreply Ht Hchat.
    destruct (@reply_inv trRes data "text" Hreply)
      as [res [-> [Hok [Hjson [_ Htext]]]]].
    eval_panel. rewrite Hjson, Hok, Htext. eval_panel.
    rewrite Ht. eval_panel.
    destruct chatRes as [e | cres]; eval_panel.
    + rewrite <- ?app_assoc; rewrite issued_app; reflexivity.
    + destruct Hchat as [e He]. rewrite He. eval_panel.
      rewrite <- ?app_assoc; rewrite issued_app; reflexivity.
Qed.

(** The one failure of the chat panel that is answered by nothing: the
    chat request made for a transcript is answered with a status outside
    2xx and a body that parses. *)
Lemma panel_chat_status_unnotified (rec : ChatInterface.MediaRecorder)
    (trRes : FetchResult) (res : Response) (w : ChatInterface.World)
    (data d : jsval) :
  reply trRes = Some data ->
  truthy (field data "text") = true ->
  ok res = false ->
  json res = inr d ->
  existsb is_toast
    (issued (ChatInterface.calls w)
            (ChatInterface.calls
               (exec (ChatInterface.onstop rec trRes (inr res)) w)))
  = false
  /\ count_fetch ChatInterface.chat_url
       (issued (ChatInterface.calls w)
               (ChatInterface.calls
                  (exec (ChatInterface.onstop rec trRes (inr res)) w)))
     = 1.
Proof.
  intros Hreply Ht Hnok Hd.
  destruct (@reply_inv trRes data "text" Hreply)
    as [tres [-> [Hok [Hjson [_ Htext]]]]].
  eval_panel. rewrite Hjson, Hok, Htext. eval_panel.
  rewrite Ht. eval_panel. rewrite Hd, Hnok. eval_panel.
  rewrite <- ?app_assoc; rewrite issued_app. split; reflexivity.
Qed.

End Failures.

(* ================================================================== *)
(** ** The books of the voice screen *)
(* ================================================================== *)

(** Settle an equation or inequality between tallies of a grown log. *)
Ltac tally :=
  unfold Observe.count_fetch, Ledger.count, Ledger.open_recorders in *;
  rewrite ?filter_app, ?length_app; cbn; lia.

Section VoiceBooks.
Import JS Web Observe Ledger VoiceMode.
Local Open Scope string_scope.
Local Open Scope list_scope.

Lemma step_books (w : World) (i : Input) :
  listening_inv w -> voice_books w -> voice_books (step w i).
Proof.
  intros HI HB. destruct i as [a | ].
  - destruct w as [[l p t r s] ref chunks syn cs].
    destruct HB as [Hp Hopen Hasked Hrel Hup Hchat Hspk Hblank].
    unfold listening_inv, idle in HI. simpl in *. subst p.
    destruct l.
    + destruct (HI eq_refl) as [[Hsp Hq] [rec [Href _]]].
      destruct (Hblank eq_refl) as [Hc [Ht Hr]].
      destruct syn as [sp q]. simpl in *. subst.
      eval_voice. decide_voice.
      all: constructor; simpl; try discriminate; try reflexivity; tally.
    + eval_voice. decide_voice.
      all: constructor; simpl; try discriminate; try reflexivity;
        try (intros _; repeat split; reflexivity); tally.
  - destruct w as [[l p t r s] ref chunks syn cs].
    destruct HB as [Hp Hopen Hasked Hrel Hup Hchat Hspk Hblank].
    unfold step, speech_end. simpl in *.
    destruct (queue syn); constructor; simpl; assumption.
Qed.

Lemma initial_books : voice_books initial.
Proof. constructor; simpl; try reflexivity; try lia; discriminate. Qed.

Lemma run_books (inputs : list Input) : voice_books (run inputs initial).
Proof.
  assert (forall w, listening_inv w -> voice_books w ->
                    voice_books (run inputs w)) as H.
  { unfold run. induction inputs as [ | i r IH ]; intros w HI HB; simpl.
    - exact HB.
    - apply IH; [ apply step_inv; exact HI | apply step_books; assumption ]. }
  apply H; [ apply initial_inv | apply initial_books ].
Qed.

(** X1. The [stop] handler of a recorder always leaves [isProcessing]
    false, whatever the two requests are answered with; so after any
    sequence of clicks and ends of utterances the button of the voice
    screen is enabled again. *)
Theorem voice_button_reenabled :
  (forall (rec : MediaRecorder) (trRes chatRes : FetchResult) (w : World),
      isProcessing (state (exec (onstop rec trRes chatRes) w)) = false)
  /\ (forall inputs : list Input,
        isProcessing (state (run inputs initial)) = false).
Proof.
  split.
  - intros rec trRes chatRes w.
    destruct w as [[l p t r s] ref chunks syn cs].
    eval_voice. decide_voice. all: reflexivity.
  - intros inputs. exact (vb_enabled (run_books inputs)).
Qed.

(** X2. In the log of the voice screen, after any sequence of events:
    every stopped recorder has had its microphone tracks stopped and its
    audio uploaded exactly once, no chat request is sent without an upload
    before it, and nothing is spoken without a chat request before it. *)
Theorem voice_pipeline_tallies (inputs : list Input) :
  count is_tracks_stop (calls (run inputs initial))
  = count is_recorder_stop (calls (run inputs initial))
  /\ count_fetch transcribe_url (calls (run inputs initial))
     = count is_recorder_stop (calls (run inputs initial))
  /\ count_fetch chat_url (calls (run inputs initial))
     <= count_fetch transcribe_url (calls (run inputs initial))
  /\ count is_speak (calls (run inputs initial))
     <= count_fetch chat_url (calls (run inputs initial)).
Proof.
  destruct (run_books inputs) as [_ _ _ Hrel Hup Hchat Hspk _].
  repeat split; assumption.
Qed.


(** X4. When the handlers of the voice screen run to completion, no event
    arriving while one of them is suspended: while the screen is listening,
    the transcript and the response it displays are empty and no audio
    chunk of an earlier recording is left in [audioChunksRef]. *)
Theorem voice_listening_is_blank (inputs : list Input) :
  isListening (state (run inputs initial)) = true ->
  transcript (state (run inputs initial)) = JStr []
  /\ response (state (run inputs initial)) = JStr []
  /\ audioChunksRef (run inputs initial) = [].
Proof.
  intros HL. destruct (vb_blank (run_books inputs) HL) as [Hc [Ht Hr]].
  repeat split; assumption.
Qed.

Lemma voice_listening_is_blank_witness :
  isListening (state (run (firstn 3 Scenario.three_talks) initial)) = true
  /\ transcript (state (run (firstn 3 Scenario.three_talks) initial))
     = JStr []
  /\ response (state (run (firstn 3 Scenario.three_talks) initial))
     = JStr []
  /\ audioChunksRef (run (firstn 3 Scenario.three_talks) initial) = [].
Proof.
  split; [ reflexivity | ].
  exact (@voice_listening_is_blank (firstn 3 Scenario.three_talks) eq_refl).
Defined.



(** X6. When the microphone is refused, [startListening] changes no cell
    and no ref of the screen and starts no recorder: it asks for the
    microphone, shows the toast "Could not access microphone", and that is
    all, except that speech that was being spoken or queued has been
    cancelled before the microphone was asked for. *)
Theorem startListening_refused (e : Error) (w : World) :
  state (exec (startListening (inl e)) w) = state w
  /\ mediaRecorderRef (exec (startListening (inl e)) w) = mediaRecorderRef w
  /\ audioChunksRef (exec (startListening (inl e)) w) = audioChunksRef w
  /\ idle (synth (exec (startListening (inl e)) w))
  /\ issued (calls w) (calls (exec (startListening (inl e)) w))
     = (if speaking (synth w) || pending (synth w) then [Cancel] else [])
       ++ [ GetUserMedia;
            Toast "Error" (JStr (u16 "Could not access microphone"))
                  "destructive" ].
Proof.
  destruct w as [[l p t r s] ref chunks [sp q] cs].
  unfold idle, speaking, pending. eval_voice.
  destruct sp as [u | ]; [ | destruct q as [ | u q ] ]; eval_voice; cbn.
  all: rewrite <- ?app_assoc; rewrite issued_app;
    repeat split; reflexivity.
Qed.

(** X7. A transcription request that fails (rejected, answered with a
    status outside 2xx, or with a body that cannot be read) leaves the
    transcript, the response, the stored session id and the synthesiser of
    the voice screen as they were and re-enables the button; an answer
    with a status outside 2xx is reported as "Transcription failed". *)
Theorem voice_failed_transcription_keeps_screen (sid : jsval) (blob : Blob)
    (trRes chatRes : FetchResult) (w : World) :
  reply trRes = None ->
  transcript (state (exec (handleTranscription sid blob trRes chatRes) w))
  = transcript (state w)
  /\ response (state (exec (handleTranscription sid blob trRes chatRes) w))
     = response (state w)
  /\ sessionId (state (exec (handleTranscription sid blob trRes chatRes) w))
     = sessionId (state w)
  /\ synth (exec (handleTranscription sid blob trRes chatRes) w) = synth w
  /\ isProcessing
       (state (exec (handleTranscription sid blob trRes chatRes) w))
     = false
  /\ (forall res,
        trRes = inr res -> ok res = false ->
        In (Toast "Error" (JStr (u16 "Transcription failed")) "destructive")
           (issued (calls w)
                   (calls (exec (handleTranscription sid blob trRes chatRes)
                                w)))).
Proof.
  intros H. destruct w as [[l p t r s] ref chunks syn cs].
  eval_voice. decide_voice.
  all: try match goal with
           | E : negb _ = false |- _ => apply negb_false_true in E
           end.
  all: try solve [ not_a_reply H ].
  all: repeat split; try reflexivity.
  all: intros res Hres Hnok; inversion Hres; subst;
    try congruence;
    rewrite <- ?app_assoc; rewrite issued_app; cbn; auto.
Qed.

Lemma voice_failed_transcription_keeps_screen_witness :
  reply Scenario.server_error = None
  /\ sessionId
       (state (exec (handleTranscription JNull Scenario.recording
                                         Scenario.server_error
                                         Scenario.reply_with_id)
                    initial))
     = sessionId (state initial).
Proof.
  split; [ reflexivity | ].
  exact (proj1 (proj2 (proj2
           (@voice_failed_transcription_keeps_screen
              JNull Scenario.recording Scenario.server_error
              Scenario.reply_with_id initial eq_refl)))).
Defined.

End VoiceBooks.

(* ================================================================== *)
(** ** The books of the chat panel *)
(* ================================================================== *)

(** Equations between results, as case analysis leaves them. *)
Ltac tidy_results :=
  repeat match goal with
         | E : inr _ = inr _ |- _ => inversion E; subst; clear E
         | E : inl _ = inr _ |- _ => discriminate E
         | E : inr _ = inl _ |- _ => discriminate E
         end.

(** A message whose fields the goal determines. *)
Ltac some_message :=
  eexists (ChatInterface.Message.Build_t _ _ _ _ _ _);
  cbn [ChatInterface.Message.content ChatInterface.Message.type
       ChatInterface.Message.sender ChatInterface.Message.fileUrl].

(** A body that is [null] cannot have had a field read. *)
Ltac bad_reply :=
  exfalso;
  match goal with
  | E : Observe.nullish ?d = _ |- _ => destruct d; simpl in *; discriminate
  end.

Ltac grown_log := rewrite <- ?app_assoc; rewrite issued_app; reflexivity.

Section PanelBooks.
Import JS Web Observe Ledger ChatInterface.
Local Open Scope string_scope.
Local Open Scope list_scope.

Lemma ids_append_message (a : jsstring) (m : Message.t)
    (ss : list Session.t) :
  map Session.id (append_message a m ss) = map Session.id ss.
Proof.
  unfold append_message. rewrite map_map. apply map_ext.
  intros s. destruct (str_eqb (Session.id s) a); reflexivity.
Qed.

Lemma names_append_message (a : jsstring) (m : Message.t)
    (ss : list Session.t) :
  map Session.name (append_message a m ss) = map Session.name ss.
Proof.
  unfold append_message. rewrite map_map. apply map_ext.
  intros s. destruct (str_eqb (Session.id s) a); reflexivity.
Qed.

Lemma length_append_message (a : jsstring) (m : Message.t)
    (ss : list Session.t) :
  List.length (append_message a m ss) = List.length ss.
Proof. unfold append_message. apply length_map. Qed.

Lemma step_panel_books (w : World) (i : Input) :
  panel_books w -> panel_books (step w i).
Proof.
  intros HB.
  destruct w as [ss act inp recg ref cs nw reads url made].
  destruct HB as [Hact Hclo Href Hopen Hrel Hup Hreq].
  unfold ids in *. simpl in *.
  destruct i; eval_panel; decide_panel.
  all: constructor; unfold ids; simpl;
    rewrite ?ids_append_message, ?map_app; simpl.
  all: try assumption.
  all: try tally.
  all: try (intros body Hin; rewrite <- ?app_assoc in Hin;
            apply in_app_or in Hin; destruct Hin as [Hin | Hin];
            [ destruct (Hreq body Hin) as [i [Hi Hin']]; exists i;
              split; [ exact Hi
                     | first [ exact Hin'
                             | apply in_or_app; left; exact Hin' ] ]
            | pick_panel_call Hin; eexists;
              (split; [ reflexivity
                      | first [ assumption | exact (Hclo _ eq_refl) ] ]) ]).
  - intros rec H. inversion H; subst. exact Hact.
  - intros _. discriminate.
  - apply in_or_app. right. left. reflexivity.
  - intros rec H. apply in_or_app. left. exact (Hclo rec H).
  - intros body Hin. destruct (Hreq body Hin) as [i [Hi Hin']].
    exists i. split; [ exact Hi | apply in_or_app; left; exact Hin' ].
  - apply in_map. eapply nth_error_In. eassumption.
Qed.

Lemma initial_panel_books (nw : nat -> Z) (url : nat -> jsstring) (t0 : Z) :
  panel_books (initial nw url t0).
Proof.
  constructor; unfold ids; simpl; try tauto; try reflexivity;
    try discriminate.
Qed.

Lemma run_panel_books (inputs : list Input) :
  forall w, panel_books w -> panel_books (run inputs w).
Proof.
  unfold run. induction inputs as [ | i r IH ]; intros w HB; simpl.
  - exact HB.
  - apply IH. apply step_panel_books. exact HB.
Qed.

Lemma find_id (a : jsstring) (ss : list Session.t) :
  In a (map Session.id ss) ->
  exists s, find (fun s => str_eqb (Session.id s) a) ss = Some s
            /\ Session.id s = a /\ In s ss.
Proof.
  induction ss as [ | s r IH ]; simpl; intros Hin; [ contradiction | ].
  destruct (str_eqb (Session.id s) a) eqn:E.
  - exists s. apply str_eqb_eq in E. auto.
  - destruct Hin as [Heq | Hin].
    + apply str_eqb_eq in Heq. congruence.
    + destruct (IH Hin) as [s' [Hf [Hid Hs']]]. exists s'. auto.
Qed.

Lemma find_fresh (a : jsstring) (ss : list Session.t) :
  ~ In a (map Session.id ss) ->
  find (fun s => str_eqb (Session.id s) a) ss = None.
Proof.
  induction ss as [ | s r IH ]; simpl; intros Hnot; [ reflexivity | ].
  destruct (str_eqb (Session.id s) a) eqn:E.
  - apply str_eqb_eq in E. tauto.
  - apply IH. tauto.
Qed.

Lemma find_app (A : Type) (f : A -> bool) (l1 l2 : list A) :
  find f (l1 ++ l2)
  = match find f l1 with Some x => Some x | None => find f l2 end.
Proof.
  induction l1 as [ | x r IH ]; simpl; [ reflexivity | ].
  destruct (f x); [ reflexivity | exact IH ].
Qed.

(** X8. Whatever is done to the chat panel, the active session id is the
    id of a session of the list, so [currentSession] is never undefined
    and is a session with the active id. *)
Theorem panel_current_session_exists (inputs : list Input)
    (nw : nat -> Z) (url : nat -> jsstring) (t0 : Z) :
  exists s,
    currentSession (run inputs (initial nw url t0)) = Some s
    /\ Session.id s = activeSession (run inputs (initial nw url t0))
    /\ In s (sessions (run inputs (initial nw url t0))).
Proof.
  pose proof (pb_active
                (run_panel_books inputs (initial_panel_books nw url t0)))
    as Hact.
  exact (find_id _ _ Hact).
Qed.

(** X9. In the log of the chat panel, after any sequence of operations:
    the recorders started are the recorders stopped, plus one exactly
    while [isRecording] holds (and then the ref holds a recorder); every
    stopped recorder has had its microphone tracks stopped and its audio
    uploaded exactly once. *)
Theorem panel_recorder_tallies (inputs : list Input)
    (nw : nat -> Z) (url : nat -> jsstring) (t0 : Z) :
  count is_recorder_start (calls (run inputs (initial nw url t0)))
  = count is_recorder_stop (calls (run inputs (initial nw url t0)))
    + (if isRecording (run inputs (initial nw url t0)) then 1 else 0)
  /\ (isRecording (run inputs (initial nw url t0)) = true ->
      mediaRecorderRef (run inputs (initial nw url t0)) <> None)
  /\ count is_tracks_stop (calls (run inputs (initial nw url t0)))
     = count is_recorder_stop (calls (run inputs (initial nw url t0)))
  /\ count_fetch transcribe_url (calls (run inputs (initial nw url t0)))
     = count is_recorder_stop (calls (run inputs (initial nw url t0))).
Proof.
  destruct (run_panel_books inputs (initial_panel_books nw url t0))
    as [_ _ Href Hopen Hrel Hup _].
  repeat split; assumption.
Qed.

Lemma panel_recorder_tallies_witness :
  isRecording (run (firstn 1 (Scenario.record_and_stop Scenario.heard
                                                        Scenario.offline))
                   Scenario.panel) = true
  /\ mediaRecorderRef
       (run (firstn 1 (Scenario.record_and_stop Scenario.heard
                                                 Scenario.offline))
            Scenario.panel) <> None.
Proof.
  split; [ reflexivity | ].
  exact (proj1 (proj2
           (panel_recorder_tallies
              (firstn 1 (Scenario.record_and_stop Scenario.heard
                                                  Scenario.offline))
              Scenario.clock (fun _ => u16 "blob:voice") 1699999999000%Z))
           eq_refl).
Defined.

(** X10. Every chat request the chat panel ever sends, for a text, an
    image or a transcript, carries exactly one [session_id] field, and its
    value is the id of a session of the list. *)
Theorem panel_requests_name_a_session (inputs : list Input)
    (nw : nat -> Z) (url : nat -> jsstring) (t0 : Z) (body : FormData) :
  In (Fetch chat_url body) (calls (run inputs (initial nw url t0))) ->
  exists i,
    field_values "session_id" body = [FText (JStr i)]
    /\ In i (ids (run inputs (initial nw url t0))).
Proof.
  exact (pb_requests
           (run_panel_books inputs (initial_panel_books nw url t0)) body).
Qed.

Lemma panel_requests_name_a_session_witness :
  In (Fetch chat_url Scenario.panel_form)
     (calls (run (Scenario.record_and_stop Scenario.heard
                                           Scenario.server_error)
                 Scenario.panel))
  /\ exists i,
       field_values "session_id" Scenario.panel_form = [FText (JStr i)]
       /\ In i (ids (run (Scenario.record_and_stop Scenario.heard
                                                   Scenario.server_error)
                         Scenario.panel)).
Proof.
  assert (In (Fetch chat_url Scenario.panel_form)
             (calls (run (Scenario.record_and_stop Scenario.heard
                                                   Scenario.server_error)
                         Scenario.panel))) as Hin.
  { vm_compute. auto 10. }
  split; [ exact Hin | ].
  exact (@panel_requests_name_a_session
           (Scenario.record_and_stop Scenario.heard Scenario.server_error)
           Scenario.clock (fun _ => u16 "blob:voice") 1699999999000%Z
           Scenario.panel_form Hin).
Defined.

Lemma step_length (w : World) (i : Input) :
  List.length (sessions (step w i))
  = List.length (sessions w) + (if is_new_chat i then 1 else 0).
Proof.
  destruct w as [ss act inp recg ref cs nw reads url made].
  destruct i; cbn [is_new_chat]; eval_panel; decide_panel.
  all: simpl; rewrite ?length_append_message, ?length_app; simpl; lia.
Qed.

Lemma step_names (w : World) (i : Input) :
  sessions w <> [] ->
  map Session.name (sessions w)
  = map name_at (seq 0 (List.length (sessions w))) ->
  map Session.name (sessions (step w i))
  = map name_at (seq 0 (List.length (sessions (step w i)))).
Proof.
  intros Hne Hnames.
  destruct w as [ss act inp recg ref cs nw reads url made].
  simpl in Hne, Hnames.
  destruct i; eval_panel; decide_panel.
  all: simpl; rewrite ?names_append_message, ?length_append_message.
  all: try assumption.
  rewrite map_app, length_app, Hnames. simpl.
  rewrite Nat.add_1_r, seq_S, map_app. simpl.
  destruct ss as [ | s r ]; [ congruence | reflexivity ].
Qed.

(** X11. The chat panel never removes a session: after any sequence of
    operations it has one session more for each click on "New Chat", and
    the session at position [k] is named "New Chat" for [k = 0] and
    "Chat k+1" otherwise. *)
Theorem panel_sessions_counted_and_named (inputs : list Input)
    (nw : nat -> Z) (url : nat -> jsstring) (t0 : Z) :
  List.length (sessions (run inputs (initial nw url t0)))
  = 1 + List.length (filter is_new_chat inputs)
  /\ map Session.name (sessions (run inputs (initial nw url t0)))
     = map name_at (seq 0 (1 + List.length (filter is_new_chat inputs))).
Proof.
  assert (forall w,
             sessions w <> [] ->
             map Session.name (sessions w)
             = map name_at (seq 0 (List.length (sessions w))) ->
             List.length (sessions (run inputs w))
             = List.length (sessions w)
               + List.length (filter is_new_chat inputs)
             /\ map Session.name (sessions (run inputs w))
                = map name_at
                      (seq 0 (List.length (sessions (run inputs w)))))
    as H.
  { unfold run. induction inputs as [ | i r IH ]; intros w Hne Hnames.
    - simpl. split; [ lia | exact Hnames ].
    - simpl fold_left.
      assert (sessions (step w i) <> []) as Hne'.
      { intros Hnil. apply (f_equal (@List.length _)) in Hnil.
        rewrite step_length in Hnil. simpl in Hnil.
        destruct (sessions w); [ congruence | simpl in Hnil; lia ]. }
      destruct (IH (step w i) Hne' (@step_names w i Hne Hnames)) as [Hl Hn].
      split; [ | exact Hn ].
      rewrite Hl, step_length. simpl filter.
      destruct (is_new_chat i); simpl; lia. }
  destruct (H (initial nw url t0)) as [Hl Hn].
  - simpl. discriminate.
  - reflexivity.
  - split; [ exact Hl | ]. rewrite Hn, Hl. reflexivity.
Qed.

(** X12. [handleSendMessage] on an input that is not blank: clears the
    input field, keeps the active session, sends exactly one chat request
    whose form is the active session id and the trimmed text, and appends
    the trimmed text as a user text message to the active session before
    the answer is known; a successful reply then appends its [response]
    field as a bot text message right after it, and a failed request
    leaves the user message in place and appends nothing. *)
Theorem send_message_appends_and_asks (chatRes : FetchResult) (w : World) :
  trim (inputMessage w) <> [] ->
  let w' := exec (handleSendMessage chatRes) w in
  let a := activeSession w in
  let sent := JStr (trim (inputMessage w)) in
  inputMessage w' = []
  /\ activeSession w' = a
  /\ bodies_to chat_url (issued (calls w) (calls w'))
     = [ [ ("session_id", FText (JStr a)); ("message", FText sent) ] ]
  /\ exists mine,
       Message.content mine = sent
       /\ Message.type mine = text /\ Message.sender mine = user
       /\ match reply chatRes with
          | Some data =>
              exists answer,
                sessions w'
                = apply_ops [Add a mine; Add a answer] (sessions w)
                /\ Message.content answer = field data "response"
                /\ Message.type answer = text
                /\ Message.sender answer = bot
          | None => sessions w' = apply_ops [Add a mine] (sessions w)
          end.
Proof.
  intros Hinput w' a sent. subst w' a sent.
  destruct w as [ss act inp recg ref cs nw reads url made].
  simpl in Hinput. unfold reply, field. eval_panel.
  destruct (trim inp) as [ | c rest ] eqn:Ht; [ congruence | ].
  cbn [truthy]. eval_panel. decide_panel.
  all: try bad_reply.
  all: tidy_results.
  all: repeat (split; [ first [ reflexivity | grown_log ] | ]).
  all: some_message; repeat (split; [ reflexivity | ]).
  all: try reflexivity.
  all: some_message; repeat split; reflexivity.
Qed.

Lemma send_message_appends_and_asks_witness :
  trim (inputMessage Ledger.typed) <> []
  /\ inputMessage (exec (handleSendMessage Scenario.offline) Ledger.typed)
     = []
  /\ bodies_to chat_url
       (issued (calls Ledger.typed)
               (calls (exec (handleSendMessage Scenario.offline)
                            Ledger.typed)))
     = [ [ ("session_id", FText (JStr (u16 "1")));
           ("message", FText (JStr (u16 "hi"))) ] ].
Proof.
  assert (trim (inputMessage Ledger.typed) <> []) as H.
  { vm_compute. discriminate. }
  split; [ exact H | ].
  pose proof (@send_message_appends_and_asks Scenario.offline Ledger.typed H)
    as [Hinput [_ [Hbody _]]].
  split; [ exact Hinput | exact Hbody ].
Defined.

(** X13. [handleFileUpload] with a file: makes one object URL for the
    file, appends the user image message "Image uploaded" holding that
    URL to the active session, and sends exactly one chat request whose
    form is the active session id and the file; a successful reply appends
    its [response] field as a bot text message right after the image, and
    a failed request leaves the image message in place and appends
    nothing. *)
Theorem upload_appends_and_asks (file : File) (chatRes : FetchResult)
    (w : World) :
  let w' := exec (handleFileUpload (Some file) chatRes) w in
  let a := activeSession w in
  bodies_to chat_url (issued (calls w) (calls w'))
  = [ [ ("session_id", FText (JStr a)); ("file", FFile file) ] ]
  /\ filter is_object_url (issued (calls w) (calls w'))
     = [ CreateObjectURL (inr file) ]
  /\ exists picture,
       Message.content picture = JStr (u16 "Image uploaded")
       /\ Message.type picture = image /\ Message.sender picture = user
       /\ Message.fileUrl picture = Some (object_url w (urls_made w))
       /\ match reply chatRes with
          | Some data =>
              exists answer,
                sessions w'
                = apply_ops [Add a picture; Add a answer] (sessions w)
                /\ Message.content answer = field data "response"
                /\ Message.type answer = text
                /\ Message.sender answer = bot
          | None => sessions w' = apply_ops [Add a picture] (sessions w)
          end.
Proof.
  intros w' a. subst w' a.
  destruct w as [ss act inp recg ref cs nw reads url made].
  unfold reply, field. eval_panel. decide_panel.
  all: try bad_reply.
  all: tidy_results.
  all: repeat (split; [ first [ reflexivity | grown_log ] | ]).
  all: some_message; repeat (split; [ reflexivity | ]).
  all: try reflexivity.
  all: some_message; repeat split; reflexivity.
Qed.

(** X14. A recording of the chat panel whose transcription and chat
    requests both succeed, the transcript being truthy, shows no toast,
    sends one chat request whose form is the session id the recorder was
    started in and the transcript, and appends three messages to that
    session, in this order: the voice message holding the object URL of
    the audio, the transcript as a user text message, the [response] field
    of the chat reply as a bot text message. *)
Theorem panel_voice_three_messages (rec : MediaRecorder)
    (trRes chatRes : FetchResult) (w : World) (heard answered : jsval) :
  reply trRes = Some heard ->
  truthy (field heard "text") = true ->
  reply chatRes = Some answered ->
  let w' := exec (onstop rec trRes chatRes) w in
  let a := onstop_activeSession rec in
  filter is_toast (issued (calls w) (calls w')) = []
  /\ bodies_to chat_url (issued (calls w) (calls w'))
     = [ [ ("session_id", FText (JStr a));
           ("message", FText (field heard "text")) ] ]
  /\ exists sound words answer,
       sessions w'
       = apply_ops [Add a sound; Add a words; Add a answer] (sessions w)
       /\ Message.type sound = voice /\ Message.sender sound = user
       /\ Message.fileUrl sound = Some (object_url w (urls_made w))
       /\ Message.content words = field heard "text"
       /\ Message.type words = text /\ Message.sender words = user
       /\ Message.content answer = field answered "response"
       /\ Message.type answer = text /\ Message.sender answer = bot.
Proof.
  intros Hheard Ht Hans w' a. subst w' a.
  destruct (@reply_inv trRes heard "text" Hheard)
    as [tres [-> [Hok [Hjson [_ Htext]]]]].
  destruct (@reply_inv chatRes answered "response" Hans)
    as [cres [-> [Hcok [Hcjson [_ Hresp]]]]].
  destruct w as [ss act inp recg ref cs nw reads url made].
  eval_panel. rewrite Hjson, Hok, Htext. eval_panel.
  rewrite Ht. eval_panel. rewrite Hcjson, Hcok. eval_panel.
  rewrite Hresp. eval_panel.
  split; [ grown_log | ]. split; [ grown_log | ].
  do 3 some_message. repeat split; reflexivity.
Qed.

Lemma panel_voice_three_messages_witness :
  reply Scenario.heard = Some Scenario.heard_body
  /\ truthy (field Scenario.heard_body "text") = true
  /\ reply Scenario.reply_with_id = Some Ledger.answer_body
  /\ filter is_toast
       (issued (calls Scenario.panel)
               (calls (exec (onstop Scenario.panel_recorder Scenario.heard
                                    Scenario.reply_with_id)
                            Scenario.panel)))
     = [].
Proof.
  split; [ reflexivity | split; [ reflexivity | split; [ reflexivity | ] ] ].
  exact (proj1 (@panel_voice_three_messages
                  Scenario.panel_recorder Scenario.heard
                  Scenario.reply_with_id Scenario.panel
                  Scenario.heard_body Ledger.answer_body
                  eq_refl eq_refl eq_refl)).
Defined.

(** X15. [createNewSession] appends one session with no messages, named
    after the number of sessions, and makes its id, the reading of the
    clock, the active one, without touching the sessions that exist and
    without any platform call.  When no session has that id yet, the new
    session is the current session; when one has, the current session is
    that older session, not the new one. *)
Theorem createNewSession_opens_empty_chat (w : World) :
  let w' := exec createNewSession w in
  let i := Number_toString (now w (clock_reads w)) in
  activeSession w' = i
  /\ (exists fresh,
         sessions w' = sessions w ++ [fresh]
         /\ Session.id fresh = i
         /\ Session.messages fresh = []
         /\ Session.name fresh
            = u16 "Chat "
              ++ Number_toString (Z.of_nat (List.length (sessions w)) + 1)
         /\ (~ In i (ids w) -> currentSession w' = Some fresh))
  /\ (In i (ids w) ->
      exists old, In old (sessions w) /\ Session.id old = i
                  /\ currentSession w' = Some old)
  /\ calls w' = calls w.
Proof.
  intros w' i. subst w' i.
  destruct w as [ss act inp recg ref cs nw reads url made].
  unfold currentSession, ids. eval_panel. cbn [Session.id].
  split; [ reflexivity | ]. split; [ | split; [ | reflexivity ] ].
  - eexists. split; [ reflexivity | ].
    cbn [Session.id Session.messages Session.name].
    repeat (split; [ reflexivity | ]).
    intros Hfresh. rewrite find_app, (find_fresh _ _ Hfresh). simpl.
    assert (str_eqb (Number_toString (nw reads)) (Number_toString (nw reads))
            = true) as -> by (apply str_eqb_eq; reflexivity).
    reflexivity.
  - intros Hin. destruct (find_id _ _ Hin) as [old [Hf [Hid Hold]]].
    exists old. split; [ exact Hold | split; [ exact Hid | ] ].
    rewrite find_app, Hf. reflexivity.
Qed.

Lemma createNewSession_opens_empty_chat_witness :
  In (Number_toString
        (now (exec createNewSession Scenario.panel)
             (clock_reads (exec createNewSession Scenario.panel))))
     (ids (exec createNewSession Scenario.panel))
  /\ exists old,
       In old (sessions (exec createNewSession Scenario.panel))
       /\ Session.id old
          = Number_toString
              (now (exec createNewSession Scenario.panel)
                   (clock_reads (exec createNewSession Scenario.panel)))
       /\ currentSession
            (exec createNewSession (exec createNewSession Scenario.panel))
          = Some old.
Proof.
  assert (In (Number_toString
                (now (exec createNewSession Scenario.panel)
                     (clock_reads (exec createNewSession Scenario.panel))))
             (ids (exec createNewSession Scenario.panel))) as Hin.
  { vm_compute. auto. }
  split; [ exact Hin | ].
  exact (proj1 (proj2 (proj2
           (createNewSession_opens_empty_chat
              (exec createNewSession Scenario.panel)))) Hin).
Defined.

End PanelBooks.

(* ================================================================== *)
(** ** Closures, mixed text, provenance *)
(* ================================================================== *)

Section Closures.
Import JS Web Observe Ledger.
Local Open Scope string_scope.
Local Open Scope list_scope.

(** X16. A recording of the chat panel belongs to the session that was
    active when it was started: when the user starts a recording, selects
    a session in the sidebar and then stops the recording, every chat
    request made for it carries the id that was active at the start, and
    every message it adds is added for that id, the voice message first. *)
Theorem panel_recording_stays_in_its_session
    (w : ChatInterface.World) (k : nat) (mic' : Error + unit)
    (d0 data : Data) (t0 c0 trRes chatRes : FetchResult) :
  ChatInterface.isRecording w = false ->
  let started :=
    ChatInterface.step w (ChatInterface.MicButton (inr tt) d0 t0 c0) in
  let switched := ChatInterface.step started (ChatInterface.Select k) in
  let stopped :=
    ChatInterface.step switched
      (ChatInterface.MicButton mic' data trRes chatRes) in
  let a := ChatInterface.activeSession w in
  (forall body,
      In body (bodies_to ChatInterface.chat_url
                         (issued (ChatInterface.calls w)
                                 (ChatInterface.calls stopped))) ->
      field_values "session_id" body = [FText (JStr a)])
  /\ exists sound ops,
       ChatInterface.sessions stopped
       = ChatInterface.apply_ops (ChatInterface.Add a sound :: ops)
                                 (ChatInterface.sessions w)
       /\ ChatInterface.Message.type sound = ChatInterface.voice
       /\ Forall (fun o => exists m, o = ChatInterface.Add a m) ops.
Proof.
  intros Hrec started switched stopped a.
  subst started switched stopped a.
  destruct w as [ss act inp recg ref cs nw reads url made].
  simpl in Hrec. subst recg.
  eval_panel. decide_panel.
  all: split;
    [ rewrite <- ?app_assoc; rewrite issued_app; cbn;
      intros body Hin; repeat (destruct Hin as [Hin | Hin];
                               [ subst body; reflexivity | ]);
      contradiction
    | some_message ].
  all: first
    [ exists []; split; [ reflexivity | split; [ reflexivity | ] ];
      constructor
    | eexists [ChatInterface.Add _ _];
      split; [ reflexivity | split; [ reflexivity | ] ];
      repeat constructor; eexists; reflexivity
    | eexists [ChatInterface.Add _ _; ChatInterface.Add _ _];
      split; [ reflexivity | split; [ reflexivity | ] ];
      repeat constructor; eexists; reflexivity ].
Qed.

Lemma panel_recording_stays_in_its_session_witness :
  ChatInterface.isRecording
    (ChatInterface.run Scenario.twin_sessions Scenario.panel) = false
  /\ (forall body,
         In body
            (bodies_to ChatInterface.chat_url
               (issued
                  (ChatInterface.calls
                     (ChatInterface.run Scenario.twin_sessions
                                        Scenario.panel))
                  (ChatInterface.calls
                     (ChatInterface.step
                        (ChatInterface.step
                           (ChatInterface.step
                              (ChatInterface.run Scenario.twin_sessions
                                                 Scenario.panel)
                              (ChatInterface.MicButton
                                 (inr tt) [] Scenario.offline
                                 Scenario.offline))
                           (ChatInterface.Select 0))
                        (ChatInterface.MicButton
                           (inr tt) [1%N] Scenario.heard
                           Scenario.reply_with_id))))) ->
         field_values "session_id" body
         = [FText (JStr (u16 "1700000000000"))]).
Proof.
  split; [ reflexivity | ].
  exact (proj1 (@panel_recording_stays_in_its_session
                  (ChatInterface.run Scenario.twin_sessions Scenario.panel)
                  0 (inr tt) [] [1%N] Scenario.offline Scenario.offline
                  Scenario.heard Scenario.reply_with_id eq_refl)).
Defined.

Lemma test_range_app (lo hi : N) (a b : jsstring) :
  test_range lo hi (a ++ b) = test_range lo hi a || test_range lo hi b.
Proof. unfold test_range. apply existsb_app. Qed.

Lemma test_char_app (ch : N) (a b : jsstring) :
  test_char ch (a ++ b) = test_char ch a || test_char ch b.
Proof. unfold test_char. apply existsb_app. Qed.

(** Decide the scripts of [a] and of [b] in the order [detectLanguage]
    tests them, stopping at the first that occurs. *)
Ltac by_script a b :=
  repeat match goal with
         | |- context [test_range ?lo ?hi a] =>
             destruct (test_range lo hi a);
             destruct (test_range lo hi b);
             cbn [orb andb];
             try solve [ auto | intros; discriminate ]
         end.

(** X17. The tag [detectLanguage] gives to a text made of two parts does
    not depend on their order; it is the tag of one of the parts; it is
    the tag of the first part when the second alone would be "en-IN"; and
    it is "hi-IN" as soon as either part holds one Devanagari code unit,
    whatever the rest of the text is. *)
Theorem detectLanguage_of_mixed_text (a b : jsstring) :
  VoiceMode.detectLanguage (a ++ b) = VoiceMode.detectLanguage (b ++ a)
  /\ (VoiceMode.detectLanguage (a ++ b) = VoiceMode.detectLanguage a
      \/ VoiceMode.detectLanguage (a ++ b) = VoiceMode.detectLanguage b)
  /\ (VoiceMode.detectLanguage b = "en-IN" ->
      VoiceMode.detectLanguage (a ++ b) = VoiceMode.detectLanguage a)
  /\ (test_range 0x0900 0x097F a = true ->
      VoiceMode.detectLanguage (a ++ b) = "hi-IN").
Proof.
  split; [ | split; [ | split ] ].
  - unfold VoiceMode.detectLanguage.
    rewrite !test_range_app, !test_char_app.
    rewrite !(orb_comm (test_range _ _ b)), !(orb_comm (test_char _ b)).
    reflexivity.
  - unfold VoiceMode.detectLanguage. rewrite !test_range_app.
    by_script a b.
  - unfold VoiceMode.detectLanguage. rewrite !test_range_app.
    by_script a b; intros H; try discriminate H; auto.
  - intros H. unfold VoiceMode.detectLanguage.
    rewrite test_range_app, H. reflexivity.
Qed.

Lemma detectLanguage_of_mixed_text_witness :
  VoiceMode.detectLanguage (u16 " ok") = "en-IN"
  /\ test_range 0x0900 0x097F Scenario.namaste = true
  /\ VoiceMode.detectLanguage (Scenario.namaste ++ u16 " ok")
     = VoiceMode.detectLanguage Scenario.namaste
  /\ VoiceMode.detectLanguage (Scenario.namaste ++ u16 " ok") = "hi-IN".
Proof.
  split; [ reflexivity | split; [ reflexivity | split ] ].
  - exact (proj1 (proj2 (proj2
             (detectLanguage_of_mixed_text Scenario.namaste (u16 " ok"))))
             eq_refl).
  - exact (proj2 (proj2 (proj2
             (detectLanguage_of_mixed_text Scenario.namaste (u16 " ok"))))
             eq_refl).
Defined.

Lemma step_session_id (w : VoiceMode.World) (i : VoiceMode.Input) :
  VoiceMode.sessionId (VoiceMode.state (VoiceMode.step w i))
  = VoiceMode.sessionId (VoiceMode.state w)
  \/ exists a data,
       i = VoiceMode.Click a
       /\ reply (VoiceMode.chatted a) = Some data
       /\ VoiceMode.sessionId (VoiceMode.state (VoiceMode.step w i))
          = field data "session_id".
Proof.
  destruct i as [[m rd tr ch] | ].
  - destruct w as [[l p t r s] ref chunks syn cs].
    unfold reply, field. eval_voice.
    cbn [VoiceMode.chatted VoiceMode.transcribed VoiceMode.mic
         VoiceMode.recorded].
    decide_voice.
    all: try (left; reflexivity).
    all: right; eexists;
      match goal with
      | E : prop ?d "session_id" = inr _ |- _ => exists d
      end;
      (split; [ reflexivity | ]);
      cbn [VoiceMode.chatted]; subst.
    all: repeat match goal with
                | E : negb _ = false |- _ => apply negb_false_true in E
                end.
    all: repeat match goal with
                | E : ok _ = true |- _ => rewrite E
                | E : json _ = _ |- _ => rewrite E
                end.
    all: match goal with
         | E : prop ?d "session_id" = inr _ |- _ =>
             destruct d; simpl in E |- *; try discriminate;
             inversion E; subst; split; reflexivity
         end.
  - left. unfold VoiceMode.step, VoiceMode.speech_end.
    destruct (VoiceMode.queue (VoiceMode.synth w)); reflexivity.
Qed.

(** X18. The session id the voice screen stores is never made up: after
    any sequence of events it is [null], as at the start, or the
    [session_id] field of the successful chat reply of one of the clicks
    of the sequence. *)
Theorem voice_session_id_provenance (inputs : list VoiceMode.Input) :
  VoiceMode.sessionId
    (VoiceMode.state (VoiceMode.run inputs VoiceMode.initial)) = JNull
  \/ exists a data,
       In (VoiceMode.Click a) inputs
       /\ reply (VoiceMode.chatted a) = Some data
       /\ VoiceMode.sessionId
            (VoiceMode.state (VoiceMode.run inputs VoiceMode.initial))
          = field data "session_id".
Proof.
  assert (forall w,
             VoiceMode.sessionId
               (VoiceMode.state (VoiceMode.run inputs w))
             = VoiceMode.sessionId (VoiceMode.state w)
             \/ exists a data,
                  In (VoiceMode.Click a) inputs
                  /\ reply (VoiceMode.chatted a) = Some data
                  /\ VoiceMode.sessionId
                       (VoiceMode.state (VoiceMode.run inputs w))
                     = field data "session_id") as H.
  { unfold VoiceMode.run.
    induction inputs as [ | i r IH ]; intros w; simpl fold_left.
    - left. reflexivity.
    - destruct (IH (VoiceMode.step w i))
        as [Hsame | [a [data [Hin [Hreply Hid]]]]].
      + destruct (step_session_id w i)
          as [Hstep | [a [data [Hi [Hreply Hid]]]]].
        * left. rewrite Hsame. exact Hstep.
        * right. exists a, data.
          split; [ left; exact Hi | ].
          split; [ exact Hreply | rewrite Hsame; exact Hid ].
      + right. exists a, data.
        split; [ right; exact Hin | split; [ exact Hreply | exact Hid ] ]. }
  destruct (H VoiceMode.initial) as [Hsame | Hsome].
  - left. rewrite Hsame. reflexivity.
  - right. exact Hsome.
Qed.

Lemma voice_failures_notify_witness :
  reply Scenario.server_error = None
  /\ exists toasted,
       issued (VoiceMode.calls VoiceMode.initial)
              (VoiceMode.calls
                 (exec (VoiceMode.handleTranscription
                          JNull Scenario.recording Scenario.server_error
                          Scenario.offline)
                       VoiceMode.initial))
       = [ Fetch VoiceMode.transcribe_url
                 [("file", FBlob Scenario.recording "recording.webm")];
           toasted ]
       /\ is_toast toasted = true.
Proof.
  split; [ reflexivity | ].
  exact (proj1 (proj2 voice_failures_notify)
               JNull Scenario.recording Scenario.server_error
               Scenario.offline VoiceMode.initial eq_refl).
Defined.

Lemma panel_failures_notify_witness :
  trim (ChatInterface.inputMessage Ledger.typed) <> []
  /\ reply Scenario.server_error = None
  /\ existsb is_toast
       (issued (ChatInterface.calls Ledger.typed)
               (ChatInterface.calls
                  (exec (ChatInterface.handleSendMessage
                           Scenario.server_error)
                        Ledger.typed)))
     = true.
Proof.
  assert (trim (ChatInterface.inputMessage Ledger.typed) <> []) as H.
  { vm_compute. discriminate. }
  split; [ exact H | split; [ reflexivity | ] ].
  exact (proj1 (proj2 panel_failures_notify)
               Scenario.server_error Ledger.typed H eq_refl).
Defined.

End Closures.

(* ================================================================== *)
(** ** The Send button and the Enter key *)
(* ================================================================== *)

Section SendButton.
Import JS Web Observe Ledger ChatInterface.
Local Open Scope string_scope.
Local Open Scope list_scope.

(** X21. [handleSendMessage], which the Enter key calls whether or not the
    Send button is enabled, agrees with the button: it sends one chat
    request when the button is enabled and none when it is disabled, and
    it leaves the panel exactly as it was if and only if the button is
    disabled. *)
Theorem enter_key_agrees_with_send_button (chatRes : FetchResult)
    (w : World) :
  count_fetch chat_url
    (issued (calls w) (calls (exec (handleSendMessage chatRes) w)))
  = (if sendDisabled w then 0 else 1)
  /\ (sendDisabled w = true <-> exec (handleSendMessage chatRes) w = w).
Proof.
  destruct w as [ss act inp recg ref cs nw reads url made].
  unfold sendDisabled. simpl.
  destruct (trim inp) as [ | c rest ] eqn:Ht; cbn [truthy negb].
  - eval_panel. rewrite Ht. cbn [truthy]. eval_panel.
    split; [ | split; reflexivity ].
    unfold issued. rewrite skipn_all. reflexivity.
  - eval_panel. rewrite Ht. cbn [truthy]. eval_panel.
    split.
    + decide_panel.
      all: rewrite <- ?app_assoc; rewrite issued_app; reflexivity.
    + split; [ discriminate | ].
      decide_panel; intros H; exfalso;
        apply (f_equal calls) in H; simpl in H;
        apply (f_equal (@List.length _)) in H;
        rewrite ?length_app in H; simpl in H; lia.
Qed.

Lemma enter_key_agrees_with_send_button_witness :
  sendDisabled Scenario.panel = true
  /\ exec (handleSendMessage Scenario.offline) Scenario.panel
     = Scenario.panel.
Proof.
  split; [ reflexivity | ].
  exact (proj1 (proj2 (enter_key_agrees_with_send_button
                         Scenario.offline Scenario.panel))
               eq_refl).
Defined.

End SendButton.
